(** * weapp-dev-mcp: session configuration resolver and connection manager

    A shallow embedding of [config.ts] (the configuration resolver),
    [weappClient.ts] (the automation session manager and its log capture),
    the helpers of [tools/common.ts] and the log reader of
    [tools/application.ts], followed by the properties established about
    them.

    Conventions of the embedding.
    - A JavaScript object literal is a record of _slots_: a key may be
      missing, present holding [undefined], or present holding a value.
      The distinction matters for object spread, which copies every own
      key, including those that hold [undefined].
    - JavaScript strings are [string]s of 8-bit code units; white space
      above U+00FF is outside the model.
    - JavaScript numbers are binary64 floats ([PrimFloat.float]).  The
      numeric fields of a validated configuration are stored as the exact
      integer the float holds.
    - Thrown exceptions are explicit: every fallible function returns a
      [completion]. *)

From Stdlib Require Import String Ascii List ZArith Bool Lia.
From Stdlib Require Import PrimFloat FloatOps SpecFloat Uint63.
From Stdlib.Strings Require Import Byte.
From Stdlib Require Import DecimalString.
Import ListNotations.

#[local] Set Warnings "-register-all".

Local Open Scope string_scope.
Local Open Scope list_scope.

(* ================================================================== *)
(** * JavaScript preliminaries *)
(* ================================================================== *)

Module JS.

(** ** Object slots and spread *)

Inductive slot (A : Type) : Type :=
| Missing                 (* the object has no such own key *)
| Undefined               (* the key is present and holds [undefined] *)
| Value (a : A).          (* the key is present and holds [a] *)

Arguments Missing {A}.
Arguments Undefined {A}.
Arguments Value {A} a.

(** [obj.key] *)
Definition read {A} (s : slot A) : option A :=
  match s with
  | Value a => Some a
  | Missing | Undefined => None
  end.

(** [key in obj] *)
Definition hasKey {A} (s : slot A) : bool :=
  match s with
  | Missing => false
  | Undefined | Value _ => true
  end.

(** One key of [{...lower, ...upper}]: every own key of [upper] is
    copied over [lower], whatever it holds. *)
Definition spread {A} (lower upper : slot A) : slot A :=
  if hasKey upper then upper else lower.

(** A key written in an object literal: [{ key: v }] with [v] possibly
    [undefined]. *)
Definition literal {A} (v : option A) : slot A :=
  match v with
  | Some a => Value a
  | None => Undefined
  end.

(** ** Strings *)

(** White space and line terminators ([\s], and what [trim] strips), in
    the code-unit range of the model. *)
Definition isWhiteSpace (c : ascii) : bool :=
  let n := nat_of_ascii c in
  ((9 <=? n) && (n <=? 13) || (n =? 32) || (n =? 160))%nat.

Fixpoint trimStart (s : string) : string :=
  match s with
  | EmptyString => EmptyString
  | String c r => if isWhiteSpace c then trimStart r else s
  end.

Fixpoint trimEnd (s : string) : string :=
  match s with
  | EmptyString => EmptyString
  | String c r =>
      match trimEnd r with
      | EmptyString => if isWhiteSpace c then EmptyString else String c EmptyString
      | r' => String c r'
      end
  end.

(** [String.prototype.trim] *)
Definition trim (s : string) : string := trimEnd (trimStart s).

(** Truthiness of a string: only the empty string is falsy. *)
Definition truthyString (s : string) : bool :=
  match s with
  | EmptyString => false
  | String _ _ => true
  end.

(** [s.split(/\s+/)]: [tok] is the token being read, [inRun] tells that
    the previous code unit was white space. *)
Fixpoint splitFrom (inRun : bool) (tok : string) (s : string) : list string :=
  match s with
  | EmptyString => [tok]
  | String c r =>
      if isWhiteSpace c
      then if inRun then splitFrom true tok r
           else tok :: splitFrom true EmptyString r
      else splitFrom false (tok ++ String c EmptyString) r
  end.

Definition splitWhiteSpace (s : string) : list string :=
  splitFrom false EmptyString s.

(** [list.join(",")] *)
Definition join (sep : string) (l : list string) : string :=
  String.concat sep l.

(** ** Numbers *)

(** [Number.isInteger], returning the integer the float holds. *)
Definition toInteger (f : float) : option Z :=
  match Prim2SF f with
  | S754_zero _ => Some 0%Z
  | S754_finite sign m e =>
      let magnitude :=
        if (0 <=? e)%Z then Some (Z.pos m * 2 ^ e)%Z
        else if (Z.pos m mod 2 ^ (- e) =? 0)%Z
             then Some (Z.pos m / 2 ^ (- e))%Z
             else None in
      match magnitude with
      | Some z => Some (if sign then (- z)%Z else z)
      | None => None
      end
  | S754_infinity _ | S754_nan => None
  end.

(** Truthiness of a number: [0], [-0] and [NaN] are falsy. *)
Definition truthyNumber (f : float) : bool :=
  negb (PrimFloat.is_zero f || PrimFloat.is_nan f).

(** [Number(b)] for a byte of a [Buffer] *)
Definition numberOfByte (b : Byte.byte) : float :=
  PrimFloat.of_uint63 (Uint63.of_Z (Z.of_N (Byte.to_N b))).

(** ** Values *)

(** The values an event or a tool result may be.  An object is listed by
    its own enumerable string-keyed properties, in order, each key once. *)
Inductive JsValue : Type :=
| JUndefined
| JNull
| JBool (b : bool)
| JNum (n : float)
| JStr (s : string)
| JBigInt (z : Z)
| JSymbol (description : string)
| JFunction (source : string)
| JDate (iso : string)                    (* a valid [Date]; [iso] is its [toISOString()] *)
| JBuffer (bytes : list Byte.byte)        (* a Node [Buffer] *)
| JArr (items : list JsValue)
| JObj (entries : list (string * JsValue)). (* a plain object *)

(** fastmcp's [SerializableValue]: what survives JSON-style serialisation. *)
Inductive SerializableValue : Type :=
| SUndefined
| SNull
| SBool (b : bool)
| SNum (n : float)
| SStr (s : string)
| SArr (items : list SerializableValue)
| SObj (entries : list (string * SerializableValue)).

(** [obj[key]] on a list of entries *)
Fixpoint lookup {A} (key : string) (entries : list (string * A)) : option A :=
  match entries with
  | [] => None
  | (k, v) :: rest => if (k =? key)%string then Some v else lookup key rest
  end.

(** [(value as any)?.key] *)
Definition getProp (value : JsValue) (key : string) : JsValue :=
  match value with
  | JObj entries =>
      match lookup key entries with
      | Some v => v
      | None => JUndefined
      end
  | _ => JUndefined
  end.

(** Decimal rendering of an index and of a [bigint]. *)
Definition indexKey (i : nat) : string := NilZero.string_of_uint (Nat.to_uint i).
Definition bigintToString (z : Z) : string := NilZero.string_of_int (Z.to_int z).

(** [String(value)] for a value that is neither an object nor one of
    the scalars handled before the call. *)
Definition stringOfOther (value : JsValue) : string :=
  match value with
  | JBigInt z => bigintToString z
  | JSymbol description => "Symbol(" ++ description ++ ")"
  | JFunction source => source
  | _ => ""
  end.

(** [Object.entries(buffer)]: one entry per byte, keyed by its index. *)
Fixpoint bufferEntries (i : nat) (bytes : list Byte.byte)
  : list (string * SerializableValue) :=
  match bytes with
  | [] => []
  | b :: rest => (indexKey i, SNum (numberOfByte b)) :: bufferEntries (S i) rest
  end.

(** [buffer.toString("base64")] *)
Definition base64Alphabet : string :=
  "ABCDEFGHIJKLMNOPQRSTUVWXYZabcdefghijklmnopqrstuvwxyz0123456789+/".

Definition sextet (n : N) : string :=
  match String.get (N.to_nat n) base64Alphabet with
  | Some c => String c EmptyString
  | None => EmptyString
  end.

Fixpoint base64 (bytes : list Byte.byte) : string :=
  match bytes with
  | [] => EmptyString
  | [a] =>
      let a := Byte.to_N a in
      sextet (a / 4) ++ sextet (a mod 4 * 16) ++ "=="
  | [a; b] =>
      let a := Byte.to_N a in
      let b := Byte.to_N b in
      sextet (a / 4) ++ sextet (a mod 4 * 16 + b / 16)
        ++ sextet (b mod 16 * 4) ++ "="
  | a :: b :: c :: rest =>
      let a := Byte.to_N a in
      let b := Byte.to_N b in
      let c := Byte.to_N c in
      sextet (a / 4) ++ sextet (a mod 4 * 16 + b / 16)
        ++ sextet (b mod 16 * 4 + c / 64) ++ sextet (c mod 64)
        ++ base64 rest
  end.

(** ** Exceptions *)

(** A value thrown by a collaborator (the automator, a handler), as far
    as a [catch (error)] clause of the program inspects it. *)
Inductive failure : Type :=
| ErrorObject (message : string)    (* an instance of [Error] *)
| ThrownValue (text : string).      (* anything else; [text] is [String(error)] *)

(** [error instanceof Error ? error.message : String(error)] *)
Definition messageOf (e : failure) : string :=
  match e with
  | ErrorObject m => m
  | ThrownValue t => t
  end.

(** The exceptions the program itself distinguishes. *)
Inductive thrown : Type :=
| ZodError                          (* schema validation failed *)
| ConfigError (message : string)    (* [class ConfigError extends Error] *)
| UserError (message : string)      (* fastmcp's [UserError] *)
| Foreign (e : failure).            (* raised by a collaborator *)

Inductive completion (A : Type) : Type :=
| Return (a : A)
| Throw (e : thrown).

Arguments Return {A} a.
Arguments Throw {A} e.

Definition bind {A B} (c : completion A) (k : A -> completion B) : completion B :=
  match c with
  | Return a => k a
  | Throw e => Throw e
  end.

End JS.

Import JS.

Notation "x <- c ;; k" := (JS.bind c (fun x => k))
  (at level 61, c at next level, right associativity).

(* ================================================================== *)
(** * config.ts *)
(* ================================================================== *)

Module Config.

(** [type AutomatorMode = "launch" | "connect"] *)
Inductive AutomatorMode : Type := launch | connect.

Definition AutomatorMode_eqb (a b : AutomatorMode) : bool :=
  match a, b with
  | launch, launch | connect, connect => true
  | _, _ => false
  end.

(** [interface WeappConnectionConfig].  An object of this type is only
    ever built by the literal at the end of [resolveConfig], which writes
    all twelve keys; reading a field gives its value or [undefined]
    ([None]). *)
Record WeappConnectionConfig : Type := {
  mode : AutomatorMode;
  cliPath : option string;
  projectPath : option string;
  wsEndpoint : option string;
  timeout : option Z;
  port : option Z;
  account : option string;
  ticket : option string;
  trustProject : option bool;
  args : option (list string);
  cwd : option string;
  autoClose : option bool
}.

(** ** The schema *)

(** A value handed to the schema: a string (every environment variable),
    or what a caller's [connection] block may hold. *)
Inductive Raw : Type :=
| RBool (b : bool)
| RNum (n : float)
| RStr (s : string)
| RArr (items : list string).

(** The object handed to [connectionOverridesSchema.parse].  The schema
    is [strict()], so no other key is accepted. *)
Module Input.
Record t : Type := {
  mode : slot Raw;
  cliPath : slot Raw;
  projectPath : slot Raw;
  wsEndpoint : slot Raw;
  timeout : slot Raw;
  port : slot Raw;
  account : slot Raw;
  ticket : slot Raw;
  trustProject : slot Raw;
  args : slot Raw;
  cwd : slot Raw;
  autoClose : slot Raw
}.
End Input.

(** [type ConnectionOverrides = z.infer<typeof connectionOverridesSchema>] *)
Module Overrides.
Record t : Type := {
  mode : slot AutomatorMode;
  cliPath : slot string;
  projectPath : slot string;
  wsEndpoint : slot string;
  timeout : slot Z;
  port : slot Z;
  account : slot string;
  ticket : slot string;
  trustProject : slot bool;
  args : slot (list string);
  cwd : slot string;
  autoClose : slot bool
}.

(** [{}] *)
Definition empty : t :=
  {| mode := Missing; cliPath := Missing; projectPath := Missing;
     wsEndpoint := Missing; timeout := Missing; port := Missing;
     account := Missing; ticket := Missing; trustProject := Missing;
     args := Missing; cwd := Missing; autoClose := Missing |}.

(** [{...lower, ...upper}] *)
Definition merge (lower upper : t) : t :=
  {| mode := spread (mode lower) (mode upper);
     cliPath := spread (cliPath lower) (cliPath upper);
     projectPath := spread (projectPath lower) (projectPath upper);
     wsEndpoint := spread (wsEndpoint lower) (wsEndpoint upper);
     timeout := spread (timeout lower) (timeout upper);
     port := spread (port lower) (port upper);
     account := spread (account lower) (account upper);
     ticket := spread (ticket lower) (ticket upper);
     trustProject := spread (trustProject lower) (trustProject upper);
     args := spread (args lower) (args upper);
     cwd := spread (cwd lower) (cwd upper);
     autoClose := spread (autoClose lower) (autoClose upper) |}.
End Overrides.

(** The process environment, as far as [resolveConfig] reads it. *)
Record Env : Type := {
  WEAPP_AUTOMATOR_MODE : option string;
  WECHAT_DEVTOOLS_CLI_PATH : option string;
  WEAPP_WS_ENDPOINT : option string;
  WEAPP_DEVTOOLS_TIMEOUT : option string;
  WEAPP_DEVTOOLS_PORT : option string;
  WEAPP_AUTO_ACCOUNT : option string;
  WEAPP_DEVTOOLS_TICKET : option string;
  WEAPP_TRUST_PROJECT : option string;
  WEAPP_DEVTOOLS_ARGS : option string;
  WEAPP_DEVTOOLS_CWD : option string;
  WEAPP_AUTOCLOSE : option string
}.

Definition noEnv : Env :=
  {| WEAPP_AUTOMATOR_MODE := None; WECHAT_DEVTOOLS_CLI_PATH := None;
     WEAPP_WS_ENDPOINT := None; WEAPP_DEVTOOLS_TIMEOUT := None;
     WEAPP_DEVTOOLS_PORT := None; WEAPP_AUTO_ACCOUNT := None;
     WEAPP_DEVTOOLS_TICKET := None; WEAPP_TRUST_PROJECT := None;
     WEAPP_DEVTOOLS_ARGS := None; WEAPP_DEVTOOLS_CWD := None;
     WEAPP_AUTOCLOSE := None |}.

Section Schema.

(** [Number(s)] for a string [s] (ECMAScript's StringToNumber).  The
    schema only asks whether the result is a positive integer, so the
    conversion is left as a parameter. *)
Variable StringToNumber : string -> float.

(** [Number(v)] *)
Definition toNumber (v : Raw) : float :=
  match v with
  | RBool true => 1%float
  | RBool false => 0%float
  | RNum n => n
  | RStr s => StringToNumber s
  | RArr items => StringToNumber (join "," items)
  end.

(** [Boolean(v)] *)
Definition toBoolean (v : Raw) : bool :=
  match v with
  | RBool b => b
  | RNum n => truthyNumber n
  | RStr s => truthyString s
  | RArr _ => true
  end.

(** Each field validator takes what [data[key]] evaluates to ([None] for
    [undefined]) and gives the parsed value, or fails. *)

(** [z.enum(["launch", "connect"]).optional()] *)
Definition modeSchema (v : option Raw) : completion (option AutomatorMode) :=
  match v with
  | None => Return None
  | Some (RStr s) =>
      if (s =? "launch")%string then Return (Some launch)
      else if (s =? "connect")%string then Return (Some connect)
      else Throw ZodError
  | Some _ => Throw ZodError
  end.

(** [z.string().trim().min(1).optional()] *)
Definition stringSchema (v : option Raw) : completion (option string) :=
  match v with
  | None => Return None
  | Some (RStr s) =>
      let t := trim s in
      if (1 <=? String.length t)%nat then Return (Some t) else Throw ZodError
  | Some _ => Throw ZodError
  end.

(** [z.coerce.number().int().positive().optional()] *)
Definition positiveIntSchema (v : option Raw) : completion (option Z) :=
  match v with
  | None => Return None
  | Some r =>
      let n := toNumber r in
      if PrimFloat.is_nan n then Throw ZodError
      else match toInteger n with
           | Some z => if (0 <? z)%Z then Return (Some z) else Throw ZodError
           | None => Throw ZodError
           end
  end.

(** [z.coerce.boolean().optional()] *)
Definition booleanSchema (v : option Raw) : completion (option bool) :=
  match v with
  | None => Return None
  | Some r => Return (Some (toBoolean r))
  end.

(** [items.map((item) => item.trim()).filter(Boolean)], then
    [normalized.length ? normalized : undefined] *)
Definition normalizeArgs (items : list string) : option (list string) :=
  match filter truthyString (map trim items) with
  | [] => None
  | normalized => Some normalized
  end.

(** [argsSchema] *)
Definition argsSchema (v : option Raw) : completion (option (list string)) :=
  match v with
  | None => Return None
  | Some (RStr s) =>
      if truthyString s then Return (normalizeArgs (splitWhiteSpace s))
      else Return None
  | Some (RArr items) => Return (normalizeArgs items)
  | Some _ => Throw ZodError
  end.

(** One key of the object schema.  zod's object parser writes a key of
    the shape into its output when the parsed value is not [undefined]
    or when the key is an own key of the input ([key in data]); a key
    the input carries with value [undefined] is therefore kept, holding
    [undefined], and a key the input lacks is left out. *)
Definition field {A} (schema : option Raw -> completion (option A))
    (s : slot Raw) : completion (slot A) :=
  v <- schema (read s) ;;
  Return match v with
         | Some a => Value a
         | None => if hasKey s then Undefined else Missing
         end.

(** [connectionOverridesSchema.parse] *)
Definition parse (data : Input.t) : completion Overrides.t :=
  mode <- field modeSchema (Input.mode data) ;;
  cliPath <- field stringSchema (Input.cliPath data) ;;
  projectPath <- field stringSchema (Input.projectPath data) ;;
  wsEndpoint <- field stringSchema (Input.wsEndpoint data) ;;
  timeout <- field positiveIntSchema (Input.timeout data) ;;
  port <- field positiveIntSchema (Input.port data) ;;
  account <- field stringSchema (Input.account data) ;;
  ticket <- field stringSchema (Input.ticket data) ;;
  trustProject <- field booleanSchema (Input.trustProject data) ;;
  args <- field argsSchema (Input.args data) ;;
  cwd <- field stringSchema (Input.cwd data) ;;
  autoClose <- field booleanSchema (Input.autoClose data) ;;
  Return {| Overrides.mode := mode; Overrides.cliPath := cliPath;
            Overrides.projectPath := projectPath;
            Overrides.wsEndpoint := wsEndpoint;
            Overrides.timeout := timeout; Overrides.port := port;
            Overrides.account := account; Overrides.ticket := ticket;
            Overrides.trustProject := trustProject; Overrides.args := args;
            Overrides.cwd := cwd; Overrides.autoClose := autoClose |}.

(** ** The three layers *)

(** The object literal [resolveConfig] hands to the schema: eleven keys,
    each written whether or not its variable is set; no [projectPath]. *)
Definition envObject (env : Env) : Input.t :=
  let var (v : option string) : slot Raw :=
    literal (option_map RStr v) in
  {| Input.mode := var (WEAPP_AUTOMATOR_MODE env);
     Input.cliPath := var (WECHAT_DEVTOOLS_CLI_PATH env);
     Input.projectPath := Missing;
     Input.wsEndpoint := var (WEAPP_WS_ENDPOINT env);
     Input.timeout := var (WEAPP_DEVTOOLS_TIMEOUT env);
     Input.port := var (WEAPP_DEVTOOLS_PORT env);
     Input.account := var (WEAPP_AUTO_ACCOUNT env);
     Input.ticket := var (WEAPP_DEVTOOLS_TICKET env);
     Input.trustProject := var (WEAPP_TRUST_PROJECT env);
     Input.args := var (WEAPP_DEVTOOLS_ARGS env);
     Input.cwd := var (WEAPP_DEVTOOLS_CWD env);
     Input.autoClose := var (WEAPP_AUTOCLOSE env) |}.

(** [connectionOverridesSchema.parse({ mode: process.env..., ... })] *)
Definition envLayer (env : Env) : completion Overrides.t :=
  parse (envObject env).

(** [overrides ? connectionOverridesSchema.parse(overrides) : {}] *)
Definition overrideLayer (overrides : option Input.t) : completion Overrides.t :=
  match overrides with
  | Some o => parse o
  | None => Return Overrides.empty
  end.

(** [if (previous.f) base.f = previous.f] for a string field *)
Definition keepString (v : option string) : slot string :=
  match v with
  | Some s => if truthyString s then Value s else Missing
  | None => Missing
  end.

(** [if (typeof previous.f === "number") ...], and likewise ["boolean"] *)
Definition keepTyped {A} (v : option A) : slot A :=
  match v with
  | Some a => Value a
  | None => Missing
  end.

(** [if (previous.args?.length) base.args = previous.args] *)
Definition keepArgs (v : option (list string)) : slot (list string) :=
  match v with
  | Some (_ :: _ as l) => Value l
  | Some [] | None => Missing
  end.

Definition fromPrevious (previous : option WeappConnectionConfig)
  : Overrides.t :=
  match previous with
  | None => Overrides.empty
  | Some previous =>
      {| Overrides.mode := Value (mode previous);
         Overrides.cliPath := keepString (cliPath previous);
         Overrides.projectPath := keepString (projectPath previous);
         Overrides.wsEndpoint := keepString (wsEndpoint previous);
         Overrides.timeout := keepTyped (timeout previous);
         Overrides.port := keepTyped (port previous);
         Overrides.account := keepString (account previous);
         Overrides.ticket := keepString (ticket previous);
         Overrides.trustProject := keepTyped (trustProject previous);
         Overrides.args := keepArgs (args previous);
         Overrides.cwd := keepString (cwd previous);
         Overrides.autoClose := keepTyped (autoClose previous) |}
  end.

(** [const merged = { ...base, ...envInput, ...overrideConfig }] *)
Definition mergeLayers (base envInput overrideConfig : Overrides.t)
  : Overrides.t :=
  Overrides.merge (Overrides.merge base envInput) overrideConfig.

(** [value ? ... : ...] on an optional string *)
Definition truthy (v : option string) : bool :=
  match v with
  | Some s => truthyString s
  | None => false
  end.

(** [merged.mode ?? (merged.wsEndpoint ? "connect" : previous?.mode ?? "launch")] *)
Definition inferMode (merged : Overrides.t)
    (previous : option WeappConnectionConfig) : AutomatorMode :=
  match read (Overrides.mode merged) with
  | Some m => m
  | None =>
      if truthy (read (Overrides.wsEndpoint merged)) then connect
      else match previous with
           | Some p => mode p
           | None => launch
           end
  end.

Definition wsEndpointRequired : string :=
  "WeChat DevTools websocket endpoint is required. Provide connection.wsEndpoint.".

Definition projectPathRequired : string :=
  "Mini Program project path is required. Provide connection.projectPath.".

(** The checks that end [resolveConfig]. *)
Definition validate (config : WeappConnectionConfig)
  : completion WeappConnectionConfig :=
  match mode config with
  | connect =>
      if negb (truthy (wsEndpoint config))
      then Throw (ConfigError wsEndpointRequired)
      else Return config
  | launch =>
      if negb (truthy (projectPath config))
      then Throw (ConfigError projectPathRequired)
      else Return config
  end.

(** The configuration literal built from the merged layers. *)
Definition configOf (merged : Overrides.t)
    (previous : option WeappConnectionConfig) : WeappConnectionConfig :=
  {| mode := inferMode merged previous;
     cliPath := read (Overrides.cliPath merged);
     projectPath := read (Overrides.projectPath merged);
     wsEndpoint := read (Overrides.wsEndpoint merged);
     timeout := read (Overrides.timeout merged);
     port := read (Overrides.port merged);
     account := read (Overrides.account merged);
     ticket := read (Overrides.ticket merged);
     trustProject := read (Overrides.trustProject merged);
     args := read (Overrides.args merged);
     cwd := read (Overrides.cwd merged);
     autoClose := read (Overrides.autoClose merged) |}.

(** [resolveConfig(overrides?, previous?)], with the process environment
    made an argument. *)
Definition resolveConfig (env : Env) (overrides : option Input.t)
    (previous : option WeappConnectionConfig)
  : completion WeappConnectionConfig :=
  envInput <- envLayer env ;;
  let base := fromPrevious previous in
  overrideConfig <- overrideLayer overrides ;;
  let merged := mergeLayers base envInput overrideConfig in
  validate (configOf merged previous).

End Schema.

End Config.

(* ================================================================== *)
(** * tools/common.ts: serialisation of tool results *)
(* ================================================================== *)

Module Common.

(** [isPageLike]: an object whose [path] is a string. *)
Definition isPageLike (value : JsValue) : bool :=
  match value with
  | JObj entries =>
      match lookup "path" entries with
      | Some (JStr _) => true
      | _ => false
      end
  | _ => false
  end.

(** [toSerializableValue], with the page-like case of
    [serializePageSummary] written in place (the two functions are
    mutually recursive in the source). *)
Fixpoint toSerializableValue (value : JsValue) : SerializableValue :=
  match value with
  | JUndefined => SUndefined
  | JNull => SNull
  | JStr s => SStr s
  | JNum n => SNum n
  | JBool b => SBool b
  | JBigInt z => SStr (bigintToString z)
  | JDate iso => SStr iso
  | JBuffer bytes => SStr (base64 bytes)
  | JArr items => SArr (map toSerializableValue items)
  | JObj entries =>
      match lookup "path" entries with
      | Some (JStr path) =>
          (* [summary = { path: page.path }], then [summary.query] when
             [page.query !== undefined] *)
          let query :=
            (fix query (es : list (string * JsValue)) :=
               match es with
               | [] => []
               | (k, v) :: rest =>
                   if (k =? "query")%string
                   then match v with
                        | JUndefined => []
                        | _ => [("query", toSerializableValue v)]
                        end
                   else query rest
               end) entries in
          SObj (("path", SStr path) :: query)
      | _ =>
          SObj (map (fun entry => (fst entry, toSerializableValue (snd entry)))
                    entries)
      end
  | JSymbol _ | JFunction _ => SStr (stringOfOther value)
  end.

(** [serializePageSummary] *)
Definition serializePageSummary (page : JsValue) : SerializableValue :=
  toSerializableValue page.

End Common.

(* ================================================================== *)
(** * weappClient.ts *)
(* ================================================================== *)

Module Client.

Import Config.

(** ** Serialisation of captured events *)

(** [toSerializable], the serialiser of the log-capture path.  A [Date]
    and a [Buffer] are objects that are not arrays, so both go through
    [Object.entries]: a [Date] has no own enumerable property, a
    [Buffer] has one per byte. *)
Fixpoint toSerializable (value : JsValue) : SerializableValue :=
  match value with
  | JUndefined => SUndefined
  | JNull => SNull
  | JStr s => SStr s
  | JNum n => SNum n
  | JBool b => SBool b
  | JArr items => SArr (map toSerializable items)
  | JObj entries =>
      SObj (map (fun entry => (fst entry, toSerializable (snd entry))) entries)
  | JDate _ => SObj []
  | JBuffer bytes => SObj (bufferEntries 0 bytes)
  | JBigInt _ | JSymbol _ | JFunction _ => SStr (stringOfOther value)
  end.

(** ** Configuration equality *)

Definition sameString (a b : option string) : bool :=
  match a, b with
  | Some x, Some y => (x =? y)%string
  | None, None => true
  | _, _ => false
  end.

Definition sameNumber (a b : option Z) : bool :=
  match a, b with
  | Some x, Some y => (x =? y)%Z
  | None, None => true
  | _, _ => false
  end.

Definition sameBoolean (a b : option bool) : bool :=
  match a, b with
  | Some x, Some y => Bool.eqb x y
  | None, None => true
  | _, _ => false
  end.

(** [a.every((value, index) => value === b[index])] *)
Definition everyAtIndex (a b : list string) : bool :=
  forallb (fun vi => match nth_error b (snd vi) with
                     | Some w => (fst vi =? w)%string
                     | None => false
                     end)
          (combine a (seq 0 (length a))).

Definition areArgsEqual (a b : option (list string)) : bool :=
  match a, b with
  | None, None => true
  | None, Some _ | Some _, None => false
  | Some a, Some b =>
      if negb (length a =? length b)%nat then false
      else everyAtIndex a b
  end.

Definition isSameConfig (a b : WeappConnectionConfig) : bool :=
  AutomatorMode_eqb (mode a) (mode b) &&
  sameString (cliPath a) (cliPath b) &&
  sameString (projectPath a) (projectPath b) &&
  sameString (wsEndpoint a) (wsEndpoint b) &&
  sameNumber (timeout a) (timeout b) &&
  sameNumber (port a) (port b) &&
  sameString (account a) (account b) &&
  sameString (ticket a) (ticket b) &&
  sameBoolean (trustProject a) (trustProject b) &&
  sameString (cwd a) (cwd b) &&
  sameBoolean (autoClose a) (autoClose b) &&
  areArgsEqual (args a) (args b).

(** ** The manager and its collaborators *)

(** The identity of a [MiniProgramInstance]. *)
Definition Handle : Type := nat.

Record ConsoleLogEntry : Type := {
  type : string;
  message : string;
  timestamp : Z;
  data : SerializableValue
}.

(** The private fields of [WeappAutomatorManager]. *)
Record WeappAutomatorManager : Type := {
  miniProgram : option Handle;
  config : option WeappConnectionConfig;
  consoleLogs : list ConsoleLogEntry
}.

Definition maxLogs : nat := 1000.

(** [new WeappAutomatorManager()] *)
Definition newManager : WeappAutomatorManager :=
  {| miniProgram := None; config := None; consoleLogs := [] |}.

(** The argument of [automator.launch]. *)
Module LaunchOptions.
Record t : Type := {
  cliPath : option string;
  projectPath : option string;
  timeout : option Z;
  port : option Z;
  account : option string;
  ticket : option string;
  trustProject : option bool;
  args : option (list string);
  cwd : option string
}.
End LaunchOptions.

Inductive LogLevel : Type := Debug | Info | Warn | Error.

(** The second argument of a [ToolLogger] call. *)
Inductive LogData : Type :=
| NoData
| SessionData (mode : AutomatorMode) (projectPath wsEndpoint : option string)
              (port : option Z)
| MessageData (message : string)
| EventData (event : SerializableValue).

(** The calls the manager makes on its collaborators. *)
Inductive Call : Type :=
| AutomatorConnect (wsEndpoint : option string)
| AutomatorLaunch (options : LaunchOptions.t)
| MiniProgramClose (h : Handle)
| MiniProgramDisconnect (h : Handle)
| RemoveAllListeners (h : Handle)
| On (h : Handle) (event : string)
| Log (level : LogLevel) (message : string) (data : LogData).

(** How the automator answers.  Each answer may depend on every call
    made so far, so that an answer may change from one call to the next. *)
Record Automator : Type := {
  connectOutcome : list Call -> option string -> Handle + failure;
  launchOutcome : list Call -> LaunchOptions.t -> Handle + failure;
  closeOutcome : list Call -> Handle -> option failure;
  disconnectOutcome : list Call -> Handle -> option failure
}.

(** The manager together with what it can observe of the world: the
    handles that carry its two listeners (one entry per [attachLogging])
    and the calls made so far, oldest first. *)
Record System : Type := {
  this : WeappAutomatorManager;
  listening : list Handle;
  calls : list Call
}.

Definition initial : System :=
  {| this := newManager; listening := []; calls := [] |}.

Definition record (c : Call) (s : System) : System :=
  {| this := this s; listening := listening s; calls := calls s ++ [c] |}.

(** [this.miniProgram = m; this.config = c] *)
Definition setSession (m : option Handle) (c : option WeappConnectionConfig)
    (s : System) : System :=
  {| this := {| miniProgram := m; config := c;
                consoleLogs := consoleLogs (this s) |};
     listening := listening s; calls := calls s |}.

Definition setConsoleLogs (logs : list ConsoleLogEntry) (s : System) : System :=
  {| this := {| miniProgram := miniProgram (this s); config := config (this s);
                consoleLogs := logs |};
     listening := listening s; calls := calls s |}.

(** [getConsoleLogs] returns a copy; [clearConsoleLogs] empties the buffer. *)
Definition getConsoleLogs (s : System) : list ConsoleLogEntry :=
  consoleLogs (this s).

Definition clearConsoleLogs (s : System) : System := setConsoleLogs [] s.

(** A call on the logger.  A [ToolLogger] method and
    [removeAllListeners] are taken not to throw. *)
Definition logWith (level : LogLevel) (message : string) (data : LogData)
    (s : System) : System :=
  record (Log level message data) s.

(** [log?.method(...)]: nothing happens without a logger. *)
Definition logIfGiven (log : bool) (level : LogLevel) (message : string)
    (data : LogData) (s : System) : System :=
  if log then logWith level message data s else s.

Definition removeAllListeners (h : Handle) (s : System) : System :=
  let s := record (RemoveAllListeners h) s in
  {| this := this s;
     listening := filter (fun h' => negb (h' =? h)%nat) (listening s);
     calls := calls s |}.

(** ** Log capture *)

Section Logging.

(** [String(n)] for a number (ECMAScript's Number::toString), a
    parameter of the model. *)
Variable NumberToString : float -> string.

(** [String(serialized)] for a serialised value, [None] when the
    conversion throws.  An array prints its elements separated by commas,
    [null] and [undefined] as nothing.  An object, which [toSerializable]
    built with [Object.fromEntries], prints as ["[object Object]"] through
    [Object.prototype.toString]; when it carries a [toString] key of its
    own, that key holds a serialised value, which is no function, an own
    [valueOf] is none either and the inherited one returns the object
    itself: the conversion throws a [TypeError]. *)
Fixpoint stringOfSerialized (v : SerializableValue) : option string :=
  match v with
  | SUndefined => Some "undefined"
  | SNull => Some "null"
  | SBool true => Some "true"
  | SBool false => Some "false"
  | SNum n => Some (NumberToString n)
  | SStr s => Some s
  | SArr items =>
      option_map (join ",")
        ((fix each (items : list SerializableValue) : option (list string) :=
            match items with
            | [] => Some []
            | item :: rest =>
                match match item with
                      | SUndefined | SNull => Some ""
                      | _ => stringOfSerialized item
                      end with
                | Some printed => option_map (cons printed) (each rest)
                | None => None
                end
            end) items)
  | SObj entries =>
      match lookup "toString" entries with
      | Some _ => None
      | None => Some "[object Object]"
      end
  end.

(** [typeof value === "string" ? value : fallback] *)
Definition stringOr (value : JsValue) (fallback : string) : string :=
  match value with
  | JStr s => s
  | _ => fallback
  end.

(** [typeof value === "string" ? value : String(serialized)]: the
    conversion is made only when the value is no string. *)
Definition stringOrPrinted (value : JsValue) (serialized : SerializableValue)
  : option string :=
  match value with
  | JStr s => Some s
  | _ => stringOfSerialized serialized
  end.

(** [this.consoleLogs.push(logEntry)], then [shift()] when the length
    exceeds [maxLogs]. *)
Definition pushLog (logEntry : ConsoleLogEntry) (logs : list ConsoleLogEntry)
  : list ConsoleLogEntry :=
  let logs := logs ++ [logEntry] in
  if (maxLogs <? length logs)%nat then tl logs else logs.

(** The entry built by the ["console"] listener; [now] is [Date.now()].
    There is none when building the message throws. *)
Definition consoleEntry (event : JsValue) (now : Z) : option ConsoleLogEntry :=
  let serialized := toSerializable event in
  option_map (fun text => {| type := stringOr (getProp event "type") "log";
                             message := text;
                             timestamp := now;
                             data := serialized |})
             (stringOrPrinted (getProp event "text") serialized).

(** The entry built by the ["exception"] listener. *)
Definition exceptionEntry (event : JsValue) (now : Z) : option ConsoleLogEntry :=
  let serialized := toSerializable event in
  option_map (fun text => {| type := "exception";
                             message := text;
                             timestamp := now;
                             data := serialized |})
             (stringOrPrinted (getProp event "message") serialized).

(** The two listeners registered by [attachLogging].  A listener that
    throws while it builds its entry has neither pushed nor logged: the
    exception leaves through the emitter and the manager is as it was. *)
Definition onConsole (event : JsValue) (now : Z) (s : System) : System :=
  match consoleEntry event now with
  | Some logEntry =>
      let s := setConsoleLogs (pushLog logEntry (consoleLogs (this s))) s in
      logWith Debug "Mini Program console event" (EventData (toSerializable event)) s
  | None => s
  end.

Definition onException (event : JsValue) (now : Z) (s : System) : System :=
  match exceptionEntry event now with
  | Some logEntry =>
      let s := setConsoleLogs (pushLog logEntry (consoleLogs (this s))) s in
      logWith Error "Mini Program exception" (EventData (toSerializable event)) s
  | None => s
  end.

(** An event observed by the manager. *)
Inductive EventKind : Type := console | exception.

Record Observed : Type := {
  kind : EventKind;
  payload : JsValue;
  observedAt : Z
}.

Definition entryOf (e : Observed) : option ConsoleLogEntry :=
  match kind e with
  | console => consoleEntry (payload e) (observedAt e)
  | exception => exceptionEntry (payload e) (observedAt e)
  end.

Definition observe (e : Observed) (s : System) : System :=
  match kind e with
  | console => onConsole (payload e) (observedAt e) s
  | exception => onException (payload e) (observedAt e) s
  end.

(** Events observed one after the other. *)
Definition observeAll (events : list Observed) (s : System) : System :=
  fold_left (fun s e => observe e s) events s.

(** [miniProgram.emit(...)] on handle [h]: every listener registered on
    [h] runs. *)
Definition emit (h : Handle) (e : Observed) (s : System) : System :=
  Nat.iter (count_occ Nat.eq_dec (listening s) h) (observe e) s.

(** Events emitted on handle [h] one after the other. *)
Definition emitAll (h : Handle) (events : list Observed) (s : System) : System :=
  fold_left (fun s e => emit h e s) events s.

(** [attachLogging] *)
Definition attachLogging (h : Handle) (s : System) : System :=
  let s := record (On h "console") s in
  let s := record (On h "exception") s in
  {| this := this s; listening := listening s ++ [h]; calls := calls s |}.

End Logging.

(** ** Session life cycle *)

Section Lifecycle.

Variable StringToNumber : string -> float.
Variable automator : Automator.

(** A computation on the system that may throw. *)
Definition M (A : Type) : Type := System -> completion A * System.

Definition ret {A} (a : A) : M A := fun s => (Return a, s).

Definition bindM {A B} (c : M A) (k : A -> M B) : M B :=
  fun s =>
    match c s with
    | (Return a, s') => k a s'
    | (Throw e, s') => (Throw e, s')
    end.

Notation "x <~ c ;; k" := (bindM c (fun x => k))
  (at level 61, c at next level, right associativity).

(** [try { body } finally { final }]: [final] always runs; if it throws,
    its exception replaces the completion of [body]. *)
Definition tryFinally {A} (body : M A) (final : M unit) : M A :=
  fun s =>
    let '(result, s1) := body s in
    match final s1 with
    | (Return _, s2) => (result, s2)
    | (Throw e, s2) => (Throw e, s2)
    end.

(** [await this.miniProgram.close()] and [this.miniProgram.disconnect()]:
    the outcome is [None], or what was thrown. *)
Definition miniProgramClose (h : Handle) (s : System) : option failure * System :=
  (closeOutcome automator (calls s) h, record (MiniProgramClose h) s).

Definition miniProgramDisconnect (h : Handle) (s : System)
  : option failure * System :=
  (disconnectOutcome automator (calls s) h, record (MiniProgramDisconnect h) s).

(** [close(log?)].  The [try] block's exception is caught by the [catch]
    clause, which only logs; the [finally] clause runs in either case. *)
Definition close (log : bool) : M unit :=
  fun s =>
    match miniProgram (this s) with
    | None => (Return tt, s)
    | Some h =>
        let '(outcome, s) :=
          match option_map mode (config (this s)) with
          | Some launch => miniProgramClose h s
          | Some Config.connect | None => miniProgramDisconnect h s
          end in
        let s :=
          match outcome with
          | None =>
              logIfGiven log Debug "Closed WeChat DevTools automation session"
                         NoData s
          | Some error =>
              logIfGiven log Warn "Failed to close WeChat DevTools cleanly"
                         (MessageData (messageOf error)) s
          end in
        let s := removeAllListeners h s in
        (Return tt, setSession None None s)
    end.

(** The private method [connect(config)]: the outcome is the new
    instance, or what was thrown. *)
Definition connect (config : WeappConnectionConfig) (s : System)
  : (Handle + failure) * System :=
  match mode config with
  | Config.connect =>
      (connectOutcome automator (calls s) (wsEndpoint config),
       record (AutomatorConnect (wsEndpoint config)) s)
  | launch =>
      let options :=
        {| LaunchOptions.cliPath := cliPath config;
           LaunchOptions.projectPath := projectPath config;
           LaunchOptions.timeout := timeout config;
           LaunchOptions.port := port config;
           LaunchOptions.account := account config;
           LaunchOptions.ticket := ticket config;
           LaunchOptions.trustProject := trustProject config;
           LaunchOptions.args := args config;
           LaunchOptions.cwd := cwd config |} in
      (launchOutcome automator (calls s) options,
       record (AutomatorLaunch options) s)
  end.

(** The message of the [UserError] raised when a session cannot be
    established. *)
Definition failedTo (config : WeappConnectionConfig) (message : string) : string :=
  "Failed to "
    ++ (match mode config with
        | Config.connect => "connect to"
        | launch => "launch"
        end)
    ++ " WeChat DevTools: " ++ message.

(** The body of [if (!canReuse) { ... }]. *)
Definition establish (config : WeappConnectionConfig) : M unit :=
  _ <~ close true ;;
  fun s =>
    let s :=
      logWith Info "Establishing WeChat DevTools automation session"
              (SessionData (mode config) (projectPath config)
                           (wsEndpoint config) (port config)) s in
    match connect config s with
    | (inl h, s) =>
        let s := setSession (Some h) (Some config) s in
        (Return tt, attachLogging h s)
    | (inr error, s) =>
        (Throw (UserError (failedTo config (messageOf error))),
         setSession None None s)
    end.

(** [interface UseOptions] *)
Record UseOptions : Type := {
  overrides : option Input.t;
  reconnect : bool
}.

(** [this.miniProgram && this.config && isSameConfig(this.config, config)] *)
Definition canReuse (config : WeappConnectionConfig) (s : System) : bool :=
  match miniProgram (this s), Client.config (this s) with
  | Some _, Some stored => isSameConfig stored config
  | _, _ => false
  end.

(** [withMiniProgram(log, options, handler)].  The handler is given
    [this.miniProgram] as it stands after the connection step, and the
    resolved configuration; what it does to the mini program is not part
    of the manager's state, so only its completion is modelled. *)
Definition withMiniProgram {T} (env : Env) (options : UseOptions)
    (handler : option Handle -> WeappConnectionConfig -> completion T) : M T :=
  fun s =>
    match resolveConfig StringToNumber env (overrides options)
                        (Client.config (this s)) with
    | Throw (ConfigError message) => (Throw (UserError message), s)
    | Throw error => (Throw error, s)
    | Return config =>
        (_ <~ (if reconnect options then close true else ret tt) ;;
         _ <~ (fun s => if canReuse config s then ret tt s
                        else establish config s) ;;
         fun s =>
           let activeProgram := miniProgram (this s) in
           tryFinally (fun s => (handler activeProgram config, s))
                      (match autoClose config with
                       | Some true => close true
                       | Some false | None => ret tt
                       end) s) s
    end.

End Lifecycle.

End Client.

(* ================================================================== *)
(** * weappClient.ts: page context *)
(* ================================================================== *)

Module Pages.

Import Config.
Import Client.

(** The identity of a page instance. *)
Definition Page : Type := nat.

Definition pageStackEmpty : string :=
  "Mini Program page stack is empty. Ensure the project window is open.".

Section WithPage.

Variable StringToNumber : string -> float.
Variable automator : Automator.

(** What [await miniProgram.currentPage()] gives on the instance handed
    to the handler: a page, nothing, or an exception. *)
Variable currentPage : option Handle -> completion (option Page).

(** [withPage(log, options, handler)] *)
Definition withPage {T} (env : Env) (options : UseOptions)
    (handler : Page -> option Handle -> WeappConnectionConfig -> completion T)
  : M T :=
  withMiniProgram StringToNumber automator env options
    (fun miniProgram config =>
       page <- currentPage miniProgram ;;
       match page with
       | None => Throw (UserError pageStackEmpty)
       | Some page => handler page miniProgram config
       end).

End WithPage.

End Pages.

(* ================================================================== *)
(** * tools/application.ts: reading the captured logs *)
(* ================================================================== *)

Module Application.

Import Config.
Import Client.

(** The object [mp_getLogs] hands to [formatJson]. *)
Record LogReport : Type := {
  count : nat;
  logs : list ConsoleLogEntry
}.

Section GetLogs.

Variable StringToNumber : string -> float.

(** [getConsoleLogsParameters.parse(rawArgs ?? {})]: [connection] goes
    through [connectionOverridesSchema.optional()], [clear] through
    [z.coerce.boolean().optional().default(false)]. *)
Definition getConsoleLogsParameters (connection : option Input.t)
    (clear : option Raw) : completion bool :=
  _ <- match connection with
       | Some data => parse StringToNumber data
       | None => Return Overrides.empty
       end ;;
  Return match clear with
         | Some raw => toBoolean raw
         | None => false
         end.

(** The [execute] function of [mp_getLogs], up to [formatJson]. *)
Definition getLogs (connection : option Input.t) (clear : option Raw)
  : M LogReport :=
  fun s =>
    match getConsoleLogsParameters connection clear with
    | Throw e => (Throw e, s)
    | Return clear =>
        let captured := getConsoleLogs s in
        let s := if clear then clearConsoleLogs s else s in
        (Return {| count := length captured; logs := captured |}, s)
    end.

End GetLogs.

End Application.

(* ================================================================== *)
(** * tools/common.ts: URLs and element lookup *)
(* ================================================================== *)

Module Tools.

(** ** [buildUrl] *)

(** The bytes [URLSearchParams.toString()] leaves as they are
    (application/x-www-form-urlencoded): [*], [-], [.], [_], digits and
    letters. *)
Definition isFormSafe (n : N) : bool :=
  ((n =? 42) || (n =? 45) || (n =? 46) || (n =? 95)
   || ((48 <=? n) && (n <=? 57))
   || ((65 <=? n) && (n <=? 90))
   || ((97 <=? n) && (n <=? 122)))%N.

Definition hexDigit (n : N) : ascii :=
  match String.get (N.to_nat n) "0123456789ABCDEF" with
  | Some c => c
  | None => "0"%char
  end.

(** One byte of the serialisation: a space becomes [+], a safe byte
    stays, any other byte is percent-encoded in upper-case hexadecimal. *)
Definition formByte (n : N) : string :=
  if (n =? 32)%N then "+"
  else if isFormSafe n then String (ascii_of_N n) EmptyString
  else String "%" (String (hexDigit (n / 16)) (String (hexDigit (n mod 16)) EmptyString)).

(** The UTF-8 bytes of a code unit below U+0100. *)
Definition utf8 (c : ascii) : list N :=
  let n := N_of_ascii c in
  if (n <? 128)%N then [n] else [192 + n / 64; 128 + n mod 64]%N.

(** [URLSearchParams.toString()] on one name or value.  Code units from
    U+0100 on are outside the model of strings. *)
Fixpoint formEncode (s : string) : string :=
  match s with
  | EmptyString => EmptyString
  | String c rest => String.concat "" (map formByte (utf8 c)) ++ formEncode rest
  end.

(** [new URLSearchParams(query).toString()] for a record listed by its
    own keys, in order. *)
Definition searchParams (query : list (string * string)) : string :=
  join "&" (map (fun entry =>
                   (formEncode (fst entry) ++ "=" ++ formEncode (snd entry))%string)
                query).

(** [s.includes(c)] for a one-character needle *)
Fixpoint includes (c : ascii) (s : string) : bool :=
  match s with
  | EmptyString => false
  | String d rest => (Ascii.eqb d c) || includes c rest
  end.

Definition buildUrl (path : string) (query : option (list (string * string)))
  : string :=
  match query with
  | None | Some [] => path
  | Some query =>
      let search := searchParams query in
      let separator := if includes "?" path then "&" else "?" in
      if truthyString search then path ++ separator ++ search else path
  end.

(** ** [resolveElement] *)

(** An element as [resolveElement] uses it: its identity, and its [$]
    method when it has one.  A query gives an element, nothing, or
    throws. *)
Inductive Element : Type :=
| element (id : nat) (query : option (string -> completion (option Element))).

Definition queryOf (e : Element) : option (string -> completion (option Element)) :=
  match e with
  | element _ query => query
  end.

(** The [page] argument: [None] when it is falsy, else its [$] method
    when it has one. *)
Definition PageArgument : Type :=
  option (option (string -> completion (option Element))).

(** The double-quote character *)
Definition quote : string := String (ascii_of_nat 34) EmptyString.

Definition pageNotAvailable : string :=
  "Page instance is not available to resolve elements.".

Definition elementNotFound (selector : string) : string :=
  "Element not found for selector " ++ quote ++ selector ++ quote ++ ".".

Definition noNestedQueries (selector : string) : string :=
  "Element for selector " ++ quote ++ selector ++ quote
    ++ " does not support nested queries.".

Definition innerNotFound (innerSelector selector : string) : string :=
  "Element not found for selector " ++ quote ++ innerSelector ++ quote
    ++ " within " ++ quote ++ selector ++ quote ++ ".".

Definition resolveElement (page : PageArgument) (selector : string)
    (innerSelector : option string) : completion Element :=
  match page with
  | None | Some None => Throw (UserError pageNotAvailable)
  | Some (Some query) =>
      found <- query selector ;;
      match found with
      | None => Throw (UserError (elementNotFound selector))
      | Some outer =>
          match innerSelector with
          | Some inner =>
              if truthyString inner then
                match queryOf outer with
                | None => Throw (UserError (noNestedQueries selector))
                | Some nested =>
                    found <- nested inner ;;
                    match found with
                    | None => Throw (UserError (innerNotFound inner selector))
                    | Some innermost => Return innermost
                    end
                end
              else Return outer
          | None => Return outer
          end
      end
  end.

End Tools.

(* ================================================================== *)
(** * Vocabulary of the statements *)
(* ================================================================== *)

Import Config.
Import Client.

(** ** The resolver *)

(** The mode invariant of a resolved configuration. *)
Definition modeInvariant (c : WeappConnectionConfig) : Prop :=
  match mode c with
  | Config.connect => exists endpoint, wsEndpoint c = Some endpoint /\ endpoint <> ""
  | launch => exists path, projectPath c = Some path /\ path <> ""
  end.

(** A string slot that does not hold the empty string. *)
Definition nonEmptySlot (s : slot string) : Prop :=
  match s with
  | Value t => truthyString t = true
  | Missing | Undefined => True
  end.

(** The caller's overrides carry neither boolean key. *)
Definition noBooleanOverride (overrides : option Input.t) : Prop :=
  match overrides with
  | Some o => Input.trustProject o = Missing /\ Input.autoClose o = Missing
  | None => True
  end.

(** ** The manager *)

(** The manager holds no session. *)
Definition noSession (s : System) : Prop :=
  miniProgram (this s) = None /\ config (this s) = None.

(** Handle and configuration are set and cleared together. *)
Definition paired (s : System) : Prop :=
  miniProgram (this s) = None <-> config (this s) = None.

(** Invocations of [automator.connect] and [automator.launch]. *)
Definition isEstablishment (c : Call) : bool :=
  match c with
  | AutomatorConnect _ | AutomatorLaunch _ => true
  | _ => false
  end.

Definition establishments (cs : list Call) : nat :=
  length (filter isEstablishment cs).

(** The call [connect(config)] makes on the automator. *)
Definition establishmentOf (config : WeappConnectionConfig) : Call :=
  match mode config with
  | Config.connect => AutomatorConnect (wsEndpoint config)
  | launch =>
      AutomatorLaunch
        {| LaunchOptions.cliPath := cliPath config;
           LaunchOptions.projectPath := projectPath config;
           LaunchOptions.timeout := timeout config;
           LaunchOptions.port := port config;
           LaunchOptions.account := account config;
           LaunchOptions.ticket := ticket config;
           LaunchOptions.trustProject := trustProject config;
           LaunchOptions.args := args config;
           LaunchOptions.cwd := cwd config |}
  end.

(** The call [close] makes on a session stored with configuration
    [stored]. *)
Definition teardownOf (stored : option WeappConnectionConfig) (h : Handle) : Call :=
  match option_map mode stored with
  | Some launch => MiniProgramClose h
  | Some Config.connect | None => MiniProgramDisconnect h
  end.

Definition establishingLog (config : WeappConnectionConfig) : Call :=
  Log Info "Establishing WeChat DevTools automation session"
      (SessionData (mode config) (projectPath config) (wsEndpoint config)
                   (port config)).

(** The calls made so far are never forgotten. *)
Definition extends (s s' : System) : Prop :=
  exists rest, calls s' = calls s ++ rest.

(** The last [n] elements of a list. *)
Definition keepLast {A} (n : nat) (l : list A) : list A :=
  skipn (length l - n) l.

Section Steps.

Variable StringToNumber : string -> float.
Variable NumberToString : float -> string.
Variable automator : Automator.

(** What [parse] returns, key by key. *)
Definition parsedFrom (data : Input.t) (o : Overrides.t) : Prop :=
  field modeSchema (Input.mode data) = Return (Overrides.mode o) /\
  field stringSchema (Input.cliPath data) = Return (Overrides.cliPath o) /\
  field stringSchema (Input.projectPath data) = Return (Overrides.projectPath o) /\
  field stringSchema (Input.wsEndpoint data) = Return (Overrides.wsEndpoint o) /\
  field (positiveIntSchema StringToNumber) (Input.timeout data)
    = Return (Overrides.timeout o) /\
  field (positiveIntSchema StringToNumber) (Input.port data)
    = Return (Overrides.port o) /\
  field stringSchema (Input.account data) = Return (Overrides.account o) /\
  field stringSchema (Input.ticket data) = Return (Overrides.ticket o) /\
  field booleanSchema (Input.trustProject data) = Return (Overrides.trustProject o) /\
  field argsSchema (Input.args data) = Return (Overrides.args o) /\
  field stringSchema (Input.cwd data) = Return (Overrides.cwd o) /\
  field booleanSchema (Input.autoClose data) = Return (Overrides.autoClose o).

(** The state [close] leaves behind a session held on handle [h]. *)
Definition closedFrom (log : bool) (h : Handle) (s : System) : System :=
  let outcome :=
    match option_map mode (config (this s)) with
    | Some launch => closeOutcome automator (calls s) h
    | Some Config.connect | None => disconnectOutcome automator (calls s) h
    end in
  let s := record (teardownOf (config (this s)) h) s in
  let s :=
    match outcome with
    | None =>
        logIfGiven log Debug "Closed WeChat DevTools automation session" NoData s
    | Some error =>
        logIfGiven log Warn "Failed to close WeChat DevTools cleanly"
                   (MessageData (messageOf error)) s
    end in
  setSession None None (removeAllListeners h s).

(** The state after [if (reconnect) await this.close(log)]. *)
Definition afterReconnect (options : UseOptions) (s : System) : System :=
  if reconnect options then snd (close automator true s) else s.

(** The state in which [connect(config)] is called: the stale session
    closed, the attempt logged. *)
Definition beforeConnect (config : WeappConnectionConfig) (s : System) : System :=
  logWith Info "Establishing WeChat DevTools automation session"
          (SessionData (mode config) (projectPath config) (wsEndpoint config)
                       (port config))
          (snd (close automator true s)).

(** What the connection step of [withMiniProgram] has for the handler:
    the handle of the stored session when that session is reused, else
    the answer of the automator. *)
Definition offered (config : WeappConnectionConfig) (options : UseOptions)
    (s : System) : option Handle + failure :=
  let s1 := afterReconnect options s in
  if canReuse config s1 then inl (miniProgram (this s1))
  else match fst (connect automator config (beforeConnect config s1)) with
       | inl h => inl (Some h)
       | inr error => inr error
       end.

(** The entries of the events whose listener got as far as the push, in
    the order of the events. *)
Definition captured (events : list Observed) : list ConsoleLogEntry :=
  flat_map (fun e => match entryOf NumberToString e with
                     | Some logEntry => [logEntry]
                     | None => []
                     end) events.

(** The handler's call and the [finally] clause. *)
Definition runHandler {T}
    (handler : option Handle -> WeappConnectionConfig -> completion T)
    (config : WeappConnectionConfig) : M T :=
  fun s =>
    tryFinally (fun s' => (handler (miniProgram (this s)) config, s'))
               (match autoClose config with
                | Some true => close automator true
                | Some false | None => ret tt
                end) s.

(** The states a manager can be in: a new manager, and what the public
    methods and the events of a mini program make of it. *)
Inductive reachable : System -> Prop :=
| reachable_initial : reachable initial
| reachable_withMiniProgram {T} env options
    (handler : option Handle -> WeappConnectionConfig -> completion T) s :
    reachable s ->
    reachable (snd (withMiniProgram StringToNumber automator env options handler s))
| reachable_close log s :
    reachable s -> reachable (snd (close automator log s))
| reachable_emit h e s :
    reachable s -> reachable (emit NumberToString h e s)
| reachable_clearConsoleLogs s :
    reachable s -> reachable (clearConsoleLogs s).

End Steps.

(** ** Concrete inputs *)

(** A stand-in for [Number(s)] and [String(n)] where no number is
    converted. *)
Definition noNumber (s : string) : float := PrimFloat.nan.
Definition noDigits (n : float) : string := "".

Definition onlyMode (m : string) : Input.t :=
  {| Input.mode := Value (RStr m); Input.cliPath := Missing;
     Input.projectPath := Missing; Input.wsEndpoint := Missing;
     Input.timeout := Missing; Input.port := Missing;
     Input.account := Missing; Input.ticket := Missing;
     Input.trustProject := Missing; Input.args := Missing;
     Input.cwd := Missing; Input.autoClose := Missing |}.

Definition onlyWsEndpoint (endpoint : string) : Input.t :=
  {| Input.mode := Missing; Input.cliPath := Missing;
     Input.projectPath := Missing; Input.wsEndpoint := Value (RStr endpoint);
     Input.timeout := Missing; Input.port := Missing;
     Input.account := Missing; Input.ticket := Missing;
     Input.trustProject := Missing; Input.args := Missing;
     Input.cwd := Missing; Input.autoClose := Missing |}.

Definition onlyProjectPath (path : string) : Input.t :=
  {| Input.mode := Missing; Input.cliPath := Missing;
     Input.projectPath := Value (RStr path); Input.wsEndpoint := Missing;
     Input.timeout := Missing; Input.port := Missing;
     Input.account := Missing; Input.ticket := Missing;
     Input.trustProject := Missing; Input.args := Missing;
     Input.cwd := Missing; Input.autoClose := Missing |}.

(** [{ mode: "launch", projectPath: "/p" }] *)
Definition explicitLaunch : Input.t :=
  {| Input.mode := Value (RStr "launch"); Input.cliPath := Missing;
     Input.projectPath := Value (RStr "/p"); Input.wsEndpoint := Missing;
     Input.timeout := Missing; Input.port := Missing;
     Input.account := Missing; Input.ticket := Missing;
     Input.trustProject := Missing; Input.args := Missing;
     Input.cwd := Missing; Input.autoClose := Missing |}.


(** [{ projectPath: "/p", autoClose: true }] *)
Definition autoClosing : Input.t :=
  {| Input.mode := Missing; Input.cliPath := Missing;
     Input.projectPath := Value (RStr "/p"); Input.wsEndpoint := Missing;
     Input.timeout := Missing; Input.port := Missing;
     Input.account := Missing; Input.ticket := Missing;
     Input.trustProject := Missing; Input.args := Missing;
     Input.cwd := Missing; Input.autoClose := Value (RBool true) |}.

(** What the schema returns for an environment with no variable set:
    every key but [projectPath], each holding [undefined]. *)
Definition envLayerOfNoEnv : Overrides.t :=
  {| Overrides.mode := Undefined; Overrides.cliPath := Undefined;
     Overrides.projectPath := Missing; Overrides.wsEndpoint := Undefined;
     Overrides.timeout := Undefined; Overrides.port := Undefined;
     Overrides.account := Undefined; Overrides.ticket := Undefined;
     Overrides.trustProject := Undefined; Overrides.args := Undefined;
     Overrides.cwd := Undefined; Overrides.autoClose := Undefined |}.

Definition overridesOnlyMode (m : AutomatorMode) : Overrides.t :=
  {| Overrides.mode := Value m; Overrides.cliPath := Missing;
     Overrides.projectPath := Missing; Overrides.wsEndpoint := Missing;
     Overrides.timeout := Missing; Overrides.port := Missing;
     Overrides.account := Missing; Overrides.ticket := Missing;
     Overrides.trustProject := Missing; Overrides.args := Missing;
     Overrides.cwd := Missing; Overrides.autoClose := Missing |}.


(** A configuration given by its mode, paths, endpoint and flags. *)
Definition configWith (m : AutomatorMode) (cli project endpoint : option string)
    (trust close : option bool) : WeappConnectionConfig :=
  {| mode := m; cliPath := cli; projectPath := project; wsEndpoint := endpoint;
     timeout := None; port := None; account := None; ticket := None;
     trustProject := trust; args := None; cwd := None; autoClose := close |}.

Definition launchedConfig : WeappConnectionConfig :=
  configWith launch None (Some "/p") None None None.

Definition launchedWithCli : WeappConnectionConfig :=
  configWith launch (Some "/cli") (Some "/p") None None None.

Definition connectedConfig : WeappConnectionConfig :=
  configWith Config.connect None None (Some "ws://x") None None.


Definition autoClosingConfig : WeappConnectionConfig :=
  configWith launch None (Some "/p") None None (Some true).

Definition flaggedConfig : WeappConnectionConfig :=
  configWith launch None (Some "/p") None (Some true) (Some true).

Definition envWithFlags (trust close : option string) : Env :=
  {| WEAPP_AUTOMATOR_MODE := None; WECHAT_DEVTOOLS_CLI_PATH := None;
     WEAPP_WS_ENDPOINT := None; WEAPP_DEVTOOLS_TIMEOUT := None;
     WEAPP_DEVTOOLS_PORT := None; WEAPP_AUTO_ACCOUNT := None;
     WEAPP_DEVTOOLS_TICKET := None; WEAPP_TRUST_PROJECT := trust;
     WEAPP_DEVTOOLS_ARGS := None; WEAPP_DEVTOOLS_CWD := None;
     WEAPP_AUTOCLOSE := close |}.

(** An automator that accepts every call; the handle it gives is the
    number of calls made so far. *)
Definition obliging : Automator :=
  {| connectOutcome := fun made _ => inl (length made);
     launchOutcome := fun made _ => inl (length made);
     closeOutcome := fun _ _ => None;
     disconnectOutcome := fun _ _ => None |}.

(** An automator that refuses every connection. *)
Definition refusing : Automator :=
  {| connectOutcome := fun _ _ => inr (ErrorObject "ECONNREFUSED");
     launchOutcome := fun _ _ => inr (ThrownValue "spawn failed");
     closeOutcome := fun _ _ => None;
     disconnectOutcome := fun _ _ => None |}.

(** An automator whose sessions cannot be closed cleanly. *)
Definition stubborn : Automator :=
  {| connectOutcome := fun made _ => inl (length made);
     launchOutcome := fun made _ => inl (length made);
     closeOutcome := fun _ _ => Some (ErrorObject "close timed out");
     disconnectOutcome := fun _ _ => Some (ThrownValue "socket hang up") |}.

Definition answering : option Handle -> WeappConnectionConfig -> completion string :=
  fun _ _ => Return "done".

Definition failing : option Handle -> WeappConnectionConfig -> completion string :=
  fun _ _ => Throw (UserError "tap failed").

Definition once (given : Input.t) : UseOptions :=
  {| overrides := Some given; reconnect := false |}.

(** The state after a first call that launched [/p]. *)
Definition launched (automator : Automator) : System :=
  snd (withMiniProgram noNumber automator noEnv (once (onlyProjectPath "/p"))
                       answering initial).


(** ** Further vocabulary *)

(** Every code unit of [s] satisfies [p]. *)
Fixpoint allChars (p : ascii -> bool) (s : string) : bool :=
  match s with
  | EmptyString => true
  | String c rest => p c && allChars p rest
  end.

(** Occurrences of [c] in [s]. *)
Fixpoint countChar (c : ascii) (s : string) : nat :=
  match s with
  | EmptyString => 0
  | String d rest => (if Ascii.eqb d c then 1 else 0) + countChar c rest
  end.

Definition notWhiteSpace (c : ascii) : bool := negb (isWhiteSpace c).

(** A string the schema leaves as it is: not empty, nothing to trim. *)
Definition settled (s : string) : Prop := s <> "" /\ trim s = s.

(** The first code unit of a string is not white space. *)
Definition startsClean (s : string) : Prop :=
  match s with
  | EmptyString => True
  | String c _ => isWhiteSpace c = false
  end.

(** A property of the value a slot holds, if it holds one. *)
Definition slotHolds {A} (P : A -> Prop) (s : slot A) : Prop :=
  match s with
  | Value a => P a
  | Missing | Undefined => True
  end.

Definition optionHolds {A} (P : A -> Prop) (v : option A) : Prop :=
  match v with
  | Some a => P a
  | None => True
  end.

(** A list of launch arguments as the schema leaves it. *)
Definition settledArgs (l : list string) : Prop :=
  l <> [] /\ Forall settled l.

(** A layer as the schema returns it. *)
Definition settledLayer (o : Overrides.t) : Prop :=
  slotHolds settled (Overrides.cliPath o) /\
  slotHolds settled (Overrides.projectPath o) /\
  slotHolds settled (Overrides.wsEndpoint o) /\
  slotHolds (fun z => (0 < z)%Z) (Overrides.timeout o) /\
  slotHolds (fun z => (0 < z)%Z) (Overrides.port o) /\
  slotHolds settled (Overrides.account o) /\
  slotHolds settled (Overrides.ticket o) /\
  slotHolds settledArgs (Overrides.args o) /\
  slotHolds settled (Overrides.cwd o).

(** A raw value that is the JavaScript form of a validated one. *)
Definition rawMode (m : AutomatorMode) (r : Raw) : Prop :=
  r = RStr match m with
           | launch => "launch"
           | Config.connect => "connect"
           end.

Definition rawString (t : string) (r : Raw) : Prop := r = RStr t.

Definition rawNumber (z : Z) (r : Raw) : Prop :=
  exists n, r = RNum n /\ PrimFloat.is_nan n = false /\ toInteger n = Some z.

Definition rawBoolean (b : bool) (r : Raw) : Prop := r = RBool b.

Definition rawArgs (l : list string) (r : Raw) : Prop := r = RArr l.

(** A key of an object handed to the schema that is the key the schema
    returned: missing, holding [undefined], or holding the same value. *)
Definition echo {A} (raw : A -> Raw -> Prop) (typed : slot A) (given : slot Raw)
  : Prop :=
  match typed, given with
  | Missing, Missing | Undefined, Undefined => True
  | Value a, Value r => raw a r
  | _, _ => False
  end.

(** [data] is the object [o] that the schema returned, handed to the
    schema again. *)
Definition echoes (o : Overrides.t) (data : Input.t) : Prop :=
  echo rawMode (Overrides.mode o) (Input.mode data) /\
  echo rawString (Overrides.cliPath o) (Input.cliPath data) /\
  echo rawString (Overrides.projectPath o) (Input.projectPath data) /\
  echo rawString (Overrides.wsEndpoint o) (Input.wsEndpoint data) /\
  echo rawNumber (Overrides.timeout o) (Input.timeout data) /\
  echo rawNumber (Overrides.port o) (Input.port data) /\
  echo rawString (Overrides.account o) (Input.account data) /\
  echo rawString (Overrides.ticket o) (Input.ticket data) /\
  echo rawBoolean (Overrides.trustProject o) (Input.trustProject data) /\
  echo rawArgs (Overrides.args o) (Input.args data) /\
  echo rawString (Overrides.cwd o) (Input.cwd data) /\
  echo rawBoolean (Overrides.autoClose o) (Input.autoClose data).

(** The two listeners sit on the handle of the session, and nowhere
    else. *)
Definition tracked (s : System) : Prop :=
  listening s = match miniProgram (this s) with
                | Some h => [h]
                | None => []
                end.

(** The bytes a serialised name or value is made of: the safe bytes,
    [+] and [%]. *)
Definition isFormChar (c : ascii) : bool :=
  let n := N_of_ascii c in
  Tools.isFormSafe n || (n =? 43)%N || (n =? 37)%N.

(** The bytes a serialised query is made of. *)
Definition isQueryChar (c : ascii) : bool :=
  isFormChar c || Ascii.eqb c "=" || Ascii.eqb c "&".

(** A value without [Date], [Buffer] or page-like object anywhere. *)
Fixpoint plain (v : JsValue) : bool :=
  match v with
  | JDate _ | JBuffer _ => false
  | JArr items => forallb plain items
  | JObj entries =>
      negb (Common.isPageLike v) && forallb (fun entry => plain (snd entry)) entries
  | _ => true
  end.

(** ** Further concrete inputs *)

(** [{ cliPath: " /cli ", args: " --a  --b ", timeout: 30000 }] on top of a
    project path. *)
Definition untidy : Input.t :=
  {| Input.mode := Missing; Input.cliPath := Value (RStr " /cli ");
     Input.projectPath := Value (RStr "/p"); Input.wsEndpoint := Missing;
     Input.timeout := Value (RNum 30000%float); Input.port := Missing;
     Input.account := Missing; Input.ticket := Missing;
     Input.trustProject := Missing; Input.args := Value (RStr " --a  --b ");
     Input.cwd := Missing; Input.autoClose := Missing |}.

Definition tidied : WeappConnectionConfig :=
  {| mode := launch; cliPath := Some "/cli"; projectPath := Some "/p";
     wsEndpoint := None; timeout := Some 30000%Z; port := None;
     account := None; ticket := None; trustProject := None;
     args := Some ["--a"; "--b"]; cwd := None; autoClose := None |}.

Definition tidiedLayer : Overrides.t :=
  {| Overrides.mode := Missing; Overrides.cliPath := Value "/cli";
     Overrides.projectPath := Value "/p"; Overrides.wsEndpoint := Missing;
     Overrides.timeout := Value 30000%Z; Overrides.port := Missing;
     Overrides.account := Missing; Overrides.ticket := Missing;
     Overrides.trustProject := Missing; Overrides.args := Value ["--a"; "--b"];
     Overrides.cwd := Missing; Overrides.autoClose := Missing |}.

(** [tidiedLayer] as an object handed to the schema. *)
Definition tidiedInput : Input.t :=
  {| Input.mode := Missing; Input.cliPath := Value (RStr "/cli");
     Input.projectPath := Value (RStr "/p"); Input.wsEndpoint := Missing;
     Input.timeout := Value (RNum 30000%float); Input.port := Missing;
     Input.account := Missing; Input.ticket := Missing;
     Input.trustProject := Missing; Input.args := Value (RArr ["--a"; "--b"]);
     Input.cwd := Missing; Input.autoClose := Missing |}.

(** A page whose [#list] holds an [.item], and nothing else. *)
Definition listElement : Tools.Element :=
  Tools.element 1
    (Some (fun selector =>
             if (selector =? ".item")%string
             then Return (Some (Tools.element 2 None))
             else Return None)).

Definition listPage : Tools.PageArgument :=
  Some (Some (fun selector =>
                if (selector =? "#list")%string then Return (Some listElement)
                else Return None)).


(** A page object as the automator reports it, with keys of its own
    besides [path] and [query]. *)
Definition indexPage : list (string * JsValue) :=
  [("id", JNum 7%float); ("path", JStr "pages/index/index");
   ("query", JObj [("from", JStr "share")]); ("data", JObj [("count", JNum 1%float)])].

(** A console event. *)
Definition infoEvent : JsValue :=
  JObj [("type", JStr "info"); ("text", JStr "tick");
        ("args", JArr [JNum 1%float; JNull; JObj [("deep", JBool true)]])].

(** A console event without text, whose only key is [toString]: it
    cannot be printed. *)
Definition opaqueEvent : JsValue := JObj [("toString", JNum 1%float)].

(** The event [infoEvent] and the event [opaqueEvent], one after the
    other. *)
Definition mixed : list Observed :=
  [{| kind := console; payload := infoEvent; observedAt := 8%Z |};
   {| kind := console; payload := opaqueEvent; observedAt := 9%Z |}].

(** The state after a first call that launched [/p] and one console
    event of its mini program. *)
Definition ticked : System :=
  emit noDigits 1 {| kind := console; payload := infoEvent; observedAt := 5%Z |}
       (launched obliging).
(* ================================================================== *)
(** * Properties of the configuration resolver *)
(* ================================================================== *)

Lemma truthyString_true s : truthyString s = true <-> s <> "".
Proof. destruct s; simpl; split; congruence. Qed.

Lemma truthyString_eqb s : truthyString s = negb (s =? "")%string.
Proof. destruct s; reflexivity. Qed.

Lemma spread_nonEmpty lower upper :
  nonEmptySlot lower -> nonEmptySlot upper -> nonEmptySlot (spread lower upper).
Proof. unfold spread; destruct upper; simpl; auto. Qed.

Lemma keepString_nonEmpty v : nonEmptySlot (keepString v).
Proof.
  destruct v as [s|]; simpl; [|exact I].
  destruct (truthyString s) eqn:E; simpl; auto.
Qed.

Lemma keepString_read v : keepString (read (keepString v)) = keepString v.
Proof.
  destruct v as [s|]; simpl; [|reflexivity].
  destruct (truthyString s) eqn:E; simpl; [rewrite E|]; reflexivity.
Qed.

Lemma truthy_nonEmpty s : nonEmptySlot s -> truthy (read s) = true <-> read s <> None.
Proof.
  destruct s; simpl; intros H; split; try congruence; intros; assumption.
Qed.

Section ResolverProperties.

Variable StringToNumber : string -> float.

Abbreviation parse := (Config.parse StringToNumber).
Abbreviation envLayer := (Config.envLayer StringToNumber).
Abbreviation overrideLayer := (Config.overrideLayer StringToNumber).
Abbreviation resolveConfig := (Config.resolveConfig StringToNumber).

(** *** Inversion of the schema *)

Lemma field_Return {A} (schema : option Raw -> completion (option A)) s r :
  field schema s = Return r ->
  exists v, schema (read s) = Return v /\
            r = match v with
                | Some a => Value a
                | None => if hasKey s then Undefined else Missing
                end.
Proof.
  unfold field. destruct (schema (read s)) as [v|e]; simpl; [|discriminate].
  intros [= <-]. exists v. split; reflexivity.
Qed.

Lemma field_hasKey {A} (schema : option Raw -> completion (option A)) s r :
  field schema s = Return r -> hasKey s = true -> hasKey r = true.
Proof.
  intros H K. apply field_Return in H as (v & _ & ->).
  destruct v; [reflexivity|]. rewrite K. reflexivity.
Qed.

Lemma field_Missing {A} (schema : option Raw -> completion (option A)) r :
  schema None = Return None -> field schema Missing = Return r -> r = Missing.
Proof.
  intros S H. apply field_Return in H as (v & Hv & ->).
  simpl in Hv. rewrite S in Hv. injection Hv as <-. reflexivity.
Qed.

Lemma stringSchema_nonEmpty s r :
  field stringSchema s = Return r -> nonEmptySlot r.
Proof.
  intros H. apply field_Return in H as (v & Hv & ->).
  destruct v as [t|]; [|destruct (hasKey s); exact I].
  simpl. unfold stringSchema in Hv.
  destruct (read s) as [[b|n|str|items]|]; try discriminate.
  destruct (1 <=? String.length (trim str))%nat eqn:E; [|discriminate].
  injection Hv as <-. destruct (trim str); [discriminate|reflexivity].
Qed.

Lemma parse_Return data o :
  parse data = Return o -> parsedFrom StringToNumber data o.
Proof.
  unfold Config.parse. intros H.
  repeat match type of H with
         | JS.bind ?c _ = Return _ =>
             let E := fresh "E" in
             destruct c eqn:E; simpl in H; [|discriminate]
         end.
  injection H as <-. unfold parsedFrom. simpl. repeat split; assumption.
Qed.

(** The environment layer carries every key but [projectPath]. *)
Lemma envLayer_keys env envInput :
  envLayer env = Return envInput ->
  hasKey (Overrides.mode envInput) = true /\
  hasKey (Overrides.cliPath envInput) = true /\
  Overrides.projectPath envInput = Missing /\
  hasKey (Overrides.wsEndpoint envInput) = true /\
  hasKey (Overrides.timeout envInput) = true /\
  hasKey (Overrides.port envInput) = true /\
  hasKey (Overrides.account envInput) = true /\
  hasKey (Overrides.ticket envInput) = true /\
  hasKey (Overrides.trustProject envInput) = true /\
  hasKey (Overrides.args envInput) = true /\
  hasKey (Overrides.cwd envInput) = true /\
  hasKey (Overrides.autoClose envInput) = true.
Proof.
  intros H. apply parse_Return in H.
  destruct H as (H1 & H2 & H3 & H4 & H5 & H6 & H7 & H8 & H9 & H10 & H11 & H12).
  assert (K : forall v : option string, hasKey (literal (option_map RStr v)) = true)
    by (intros [v|]; reflexivity).
  repeat split;
    try (eapply field_hasKey; [eassumption | apply K]).
  eapply field_Missing; [|exact H3]. reflexivity.
Qed.

Lemma parse_nonEmpty data o :
  parse data = Return o ->
  nonEmptySlot (Overrides.projectPath o) /\ nonEmptySlot (Overrides.wsEndpoint o).
Proof.
  intros H. apply parse_Return in H.
  destruct H as (_ & _ & H3 & H4 & _).
  split; eapply stringSchema_nonEmpty; eassumption.
Qed.

Lemma overrideLayer_nonEmpty overrides o :
  overrideLayer overrides = Return o ->
  nonEmptySlot (Overrides.projectPath o) /\ nonEmptySlot (Overrides.wsEndpoint o).
Proof.
  destruct overrides as [data|]; simpl.
  - apply parse_nonEmpty.
  - intros [= <-]. split; exact I.
Qed.

Lemma fromPrevious_nonEmpty previous :
  nonEmptySlot (Overrides.projectPath (fromPrevious previous)) /\
  nonEmptySlot (Overrides.wsEndpoint (fromPrevious previous)).
Proof.
  destruct previous as [p|]; simpl; split;
    try exact I; apply keepString_nonEmpty.
Qed.

Lemma merged_nonEmpty env overrides previous envInput overrideConfig :
  envLayer env = Return envInput ->
  overrideLayer overrides = Return overrideConfig ->
  let merged := mergeLayers (fromPrevious previous) envInput overrideConfig in
  nonEmptySlot (Overrides.projectPath merged) /\
  nonEmptySlot (Overrides.wsEndpoint merged).
Proof.
  intros He Ho.
  destruct (parse_nonEmpty _ _ He), (overrideLayer_nonEmpty _ _ Ho),
    (fromPrevious_nonEmpty previous).
  simpl. split; repeat apply spread_nonEmpty; assumption.
Qed.

(** [resolveConfig] once both layers have passed the schema. *)
Lemma resolveConfig_layers env overrides previous envInput overrideConfig :
  envLayer env = Return envInput ->
  overrideLayer overrides = Return overrideConfig ->
  resolveConfig env overrides previous =
    validate (configOf (mergeLayers (fromPrevious previous) envInput overrideConfig)
                       previous).
Proof.
  intros He Ho. unfold Config.resolveConfig. rewrite He, Ho. reflexivity.
Qed.

Lemma resolveConfig_Return env overrides previous config :
  resolveConfig env overrides previous = Return config ->
  exists envInput overrideConfig,
    envLayer env = Return envInput /\
    overrideLayer overrides = Return overrideConfig /\
    validate (configOf (mergeLayers (fromPrevious previous) envInput overrideConfig)
                       previous) = Return config.
Proof.
  unfold Config.resolveConfig. intros H.
  destruct (envLayer env) as [envInput|] eqn:He; simpl in H; [|discriminate].
  destruct (overrideLayer overrides) as [overrideConfig|] eqn:Ho; simpl in H;
    [|discriminate].
  exists envInput, overrideConfig. auto.
Qed.

Lemma validate_Return c config : validate c = Return config -> config = c.
Proof.
  unfold validate.
  destruct (mode c); destruct (negb _); intros [=]; congruence.
Qed.

(** C3.  After merge and mode inference, a [connect] configuration
    without [wsEndpoint] and a [launch] configuration without
    [projectPath] are refused with a [ConfigError] whose message names the
    missing field and how to supply it; in every other case the
    configuration is returned, and whatever [resolveConfig] returns
    satisfies the mode invariant. *)
Theorem resolveConfig_validation env overrides previous envInput overrideConfig :
  envLayer env = Return envInput ->
  overrideLayer overrides = Return overrideConfig ->
  let config :=
    configOf (mergeLayers (fromPrevious previous) envInput overrideConfig)
             previous in
  (mode config = Config.connect -> wsEndpoint config = None ->
   resolveConfig env overrides previous =
     Throw (ConfigError
       "WeChat DevTools websocket endpoint is required. Provide connection.wsEndpoint."))
  /\ (mode config = launch -> projectPath config = None ->
      resolveConfig env overrides previous =
        Throw (ConfigError
          "Mini Program project path is required. Provide connection.projectPath."))
  /\ ((mode config = Config.connect /\ wsEndpoint config <> None) \/
      (mode config = launch /\ projectPath config <> None) ->
      resolveConfig env overrides previous = Return config)
  /\ (forall returned,
        resolveConfig env overrides previous = Return returned ->
        returned = config /\ modeInvariant returned).
Proof.
  intros He Ho config.
  rewrite (resolveConfig_layers _ _ _ _ _ He Ho). fold config.
  destruct (merged_nonEmpty _ _ previous _ _ He Ho) as [Np Nw].
  apply truthy_nonEmpty in Np, Nw.
  change (read (Overrides.projectPath _)) with (projectPath config) in Np.
  change (read (Overrides.wsEndpoint _)) with (wsEndpoint config) in Nw.
  unfold validate, modeInvariant.
  repeat split.
  - intros -> E. rewrite E. reflexivity.
  - intros -> E. rewrite E. reflexivity.
  - intros [[-> E] | [-> E]];
      [apply Nw in E | apply Np in E]; rewrite E; reflexivity.
  - destruct (mode config); destruct (negb _); congruence.
  - assert (E : returned = config).
    { destruct (mode config); destruct (negb _); congruence. }
    subst returned.
    destruct (mode config).
    + destruct (truthy (projectPath config)) eqn:T; [|discriminate].
      destruct (projectPath config) as [path|]; [|discriminate].
      exists path. split; [reflexivity|]. apply truthyString_true, T.
    + destruct (truthy (wsEndpoint config)) eqn:T; [|discriminate].
      destruct (wsEndpoint config) as [endpoint|]; [|discriminate].
      exists endpoint. split; [reflexivity|]. apply truthyString_true, T.
Qed.


(** Resolving again with the same overrides and environment, against the
    configuration just resolved, gives that configuration back. *)
Lemma spread_hasKey {A} (lower upper : slot A) :
  hasKey upper = true -> spread lower upper = upper.
Proof. unfold spread. intros ->. reflexivity. Qed.

(** With the environment layer in the middle, the layer below shows
    through for [projectPath] only. *)
Lemma mergeLayers_over_env env envInput base overrideConfig :
  envLayer env = Return envInput ->
  mergeLayers base envInput overrideConfig =
    {| Overrides.mode :=
         spread (Overrides.mode envInput) (Overrides.mode overrideConfig);
       Overrides.cliPath :=
         spread (Overrides.cliPath envInput) (Overrides.cliPath overrideConfig);
       Overrides.projectPath :=
         spread (Overrides.projectPath base) (Overrides.projectPath overrideConfig);
       Overrides.wsEndpoint :=
         spread (Overrides.wsEndpoint envInput) (Overrides.wsEndpoint overrideConfig);
       Overrides.timeout :=
         spread (Overrides.timeout envInput) (Overrides.timeout overrideConfig);
       Overrides.port :=
         spread (Overrides.port envInput) (Overrides.port overrideConfig);
       Overrides.account :=
         spread (Overrides.account envInput) (Overrides.account overrideConfig);
       Overrides.ticket :=
         spread (Overrides.ticket envInput) (Overrides.ticket overrideConfig);
       Overrides.trustProject :=
         spread (Overrides.trustProject envInput)
                (Overrides.trustProject overrideConfig);
       Overrides.args :=
         spread (Overrides.args envInput) (Overrides.args overrideConfig);
       Overrides.cwd :=
         spread (Overrides.cwd envInput) (Overrides.cwd overrideConfig);
       Overrides.autoClose :=
         spread (Overrides.autoClose envInput) (Overrides.autoClose overrideConfig) |}.
Proof.
  intros He.
  destruct (envLayer_keys _ _ He)
    as (K1 & K2 & K3 & K4 & K5 & K6 & K7 & K8 & K9 & K10 & K11 & K12).
  unfold mergeLayers, Overrides.merge.
  rewrite (spread_hasKey _ _ K1), (spread_hasKey _ _ K2), (spread_hasKey _ _ K4),
    (spread_hasKey _ _ K5), (spread_hasKey _ _ K6), (spread_hasKey _ _ K7),
    (spread_hasKey _ _ K8), (spread_hasKey _ _ K9), (spread_hasKey _ _ K10),
    (spread_hasKey _ _ K11), (spread_hasKey _ _ K12), K3.
  reflexivity.
Qed.

Lemma projectPath_kept previous (upper : slot string) :
  let kept := read (spread (Overrides.projectPath (fromPrevious previous)) upper) in
  read (spread (keepString kept) upper) = kept.
Proof.
  unfold spread. cbv zeta. destruct (hasKey upper); [reflexivity|].
  destruct previous as [p|]; simpl; [|reflexivity].
  rewrite keepString_read. reflexivity.
Qed.

Lemma resolveConfig_again env overrides previous config :
  resolveConfig env overrides previous = Return config ->
  resolveConfig env overrides (Some config) = Return config.
Proof.
  intros H.
  destruct (resolveConfig_Return _ _ _ _ H) as (E & O & He & Ho & V).
  rewrite (resolveConfig_layers _ _ _ _ _ He Ho).
  pose proof (validate_Return _ _ V) as C. rewrite <- C in V.
  rewrite (mergeLayers_over_env _ _ _ _ He) in C.
  rewrite (mergeLayers_over_env _ _ _ _ He).
  replace (configOf _ (Some config)) with config; [exact V|].
  unfold configOf at 1. simpl.
  pose proof (projectPath_kept previous (Overrides.projectPath O)) as P.
  simpl in P.
  assert (Cp : projectPath config =
               read (spread (Overrides.projectPath (fromPrevious previous))
                            (Overrides.projectPath O)))
    by (rewrite C; reflexivity).
  rewrite Cp, P.
  assert (M : forall (q : option WeappConnectionConfig) m,
             inferMode m q =
             match read (Overrides.mode m) with
             | Some x => x
             | None => if truthy (read (Overrides.wsEndpoint m)) then Config.connect
                       else match q with Some p => mode p | None => launch end
             end) by reflexivity.
  rewrite M. simpl.
  assert (Cm : mode config =
               match read (spread (Overrides.mode E) (Overrides.mode O)) with
               | Some x => x
               | None =>
                   if truthy (read (spread (Overrides.wsEndpoint E)
                                           (Overrides.wsEndpoint O)))
                   then Config.connect
                   else match previous with Some p => mode p | None => launch end
               end)
    by (rewrite C; reflexivity).
  replace (match read (spread (Overrides.mode E) (Overrides.mode O)) with
           | Some x => x
           | None =>
               if truthy (read (spread (Overrides.wsEndpoint E) (Overrides.wsEndpoint O)))
               then Config.connect else mode config
           end) with (mode config).
  - rewrite C at 1. unfold configOf. simpl. f_equal. symmetry. exact Cm.
  - clear - Cm. revert Cm. generalize (mode config). intros m Cm.
    destruct (read (spread (Overrides.mode E) (Overrides.mode O))); [exact Cm|].
    destruct (truthy _); [exact Cm|reflexivity].
Qed.

(** C1 (the code at the failing input).  [fromPrevious] copies the
    previous [cliPath] into the lowest layer, but the environment layer
    carries a [cliPath] key holding [undefined], which the spread copies
    over it: with no override and no environment variable the resolved
    configuration has lost [cliPath], while [projectPath], which the
    environment layer does not carry, is kept. *)
Theorem resolveConfig_drops_previous_cliPath :
  Overrides.cliPath (fromPrevious (Some launchedWithCli)) = Value "/cli"
  /\ resolveConfig noEnv None (Some launchedWithCli) =
       Return {| mode := launch; cliPath := None; projectPath := Some "/p";
                 wsEndpoint := None; timeout := None; port := None;
                 account := None; ticket := None; trustProject := None;
                 args := None; cwd := None; autoClose := None |}.
Proof. split; reflexivity. Qed.

(** Apart from [mode] and [projectPath], no field of the result depends
    on the previous configuration. *)
Lemma resolveConfig_previous_irrelevant env overrides previous previous' c c' :
  resolveConfig env overrides previous = Return c ->
  resolveConfig env overrides previous' = Return c' ->
  cliPath c = cliPath c' /\ wsEndpoint c = wsEndpoint c' /\
  timeout c = timeout c' /\ port c = port c' /\ account c = account c' /\
  ticket c = ticket c' /\ trustProject c = trustProject c' /\
  args c = args c' /\ cwd c = cwd c' /\ autoClose c = autoClose c'.
Proof.
  intros H H'.
  destruct (resolveConfig_Return _ _ _ _ H) as (E & O & He & Ho & V).
  rewrite (resolveConfig_layers _ _ _ _ _ He Ho) in H'.
  apply validate_Return in V, H'.
  rewrite (mergeLayers_over_env _ _ _ _ He) in V.
  rewrite (mergeLayers_over_env _ _ _ _ He) in H'.
  subst c c'. simpl. repeat split; reflexivity.
Qed.

(** *** Coercion of the boolean fields *)

Lemma booleanSchema_string s :
  booleanSchema (Some (RStr s)) = Return (Some (negb (s =? "")%string)).
Proof. simpl. rewrite truthyString_eqb. reflexivity. Qed.

Lemma booleanField_env (v : option string) r :
  field booleanSchema (literal (option_map RStr v)) = Return r ->
  read r = option_map (fun s => negb (s =? "")%string) v.
Proof.
  destruct v as [s|]; simpl; intros [= <-]; simpl;
    [rewrite truthyString_eqb|]; reflexivity.
Qed.

Lemma noBooleanOverride_layer overrides o :
  noBooleanOverride overrides -> overrideLayer overrides = Return o ->
  Overrides.trustProject o = Missing /\ Overrides.autoClose o = Missing.
Proof.
  destruct overrides as [data|]; simpl.
  - intros [T A] H. apply parse_Return in H.
    destruct H as (_ & _ & _ & _ & _ & _ & _ & _ & H9 & _ & _ & H12).
    rewrite T in H9. rewrite A in H12.
    split; eapply field_Missing; try eassumption; reflexivity.
  - intros _ [= <-]. split; reflexivity.
Qed.

(** C10 (amended).  The schema coerces a string given for [trustProject]
    or [autoClose] to its truthiness: every non-empty string, ["false"]
    and ["0"] included, gives [true], and the empty string gives [false].
    So, when the caller's overrides carry neither key, each of the two
    fields is unset exactly when its environment variable is absent, is
    [false] exactly when the variable is the empty string, and is [true]
    for every other value of the variable. *)
Theorem boolean_fields_follow_string_truthiness env overrides previous config s :
  resolveConfig env overrides previous = Return config ->
  noBooleanOverride overrides ->
  booleanSchema (Some (RStr s)) = Return (Some (negb (s =? "")%string))
  /\ booleanSchema None = Return None
  /\ trustProject config =
       option_map (fun v => negb (v =? "")%string) (WEAPP_TRUST_PROJECT env)
  /\ autoClose config =
       option_map (fun v => negb (v =? "")%string) (WEAPP_AUTOCLOSE env).
Proof.
  intros H N.
  destruct (resolveConfig_Return _ _ _ _ H) as (E & O & He & Ho & V).
  apply validate_Return in V.
  rewrite (mergeLayers_over_env _ _ _ _ He) in V.
  destruct (noBooleanOverride_layer _ _ N Ho) as [T A].
  pose proof (parse_Return _ _ He) as P.
  destruct P as (_ & _ & _ & _ & _ & _ & _ & _ & P9 & _ & _ & P12).
  apply booleanField_env in P9, P12.
  subst config. simpl. rewrite T, A. unfold spread. simpl.
  repeat split; try assumption. apply booleanSchema_string.
Qed.

End ResolverProperties.

(* ================================================================== *)
(** * Properties of the session manager *)
(* ================================================================== *)

(** ** Configuration equality decides equality *)

Lemma sameString_eq a b : sameString a b = true <-> a = b.
Proof.
  destruct a as [x|], b as [y|]; simpl; split; try congruence.
  - intros H. apply String.eqb_eq in H. congruence.
  - intros [= ->]. apply String.eqb_refl.
Qed.

Lemma sameNumber_eq a b : sameNumber a b = true <-> a = b.
Proof.
  destruct a as [x|], b as [y|]; simpl; split; try congruence.
  - intros H. apply Z.eqb_eq in H. congruence.
  - intros [= ->]. apply Z.eqb_refl.
Qed.

Lemma sameBoolean_eq a b : sameBoolean a b = true <-> a = b.
Proof.
  destruct a as [[]|], b as [[]|]; simpl; split; congruence.
Qed.

Lemma AutomatorMode_eqb_eq a b : AutomatorMode_eqb a b = true <-> a = b.
Proof. destruct a, b; simpl; split; congruence. Qed.

(** The indexed comparison, started at index [length before] of
    [before ++ b], succeeds exactly when [a] is a prefix of [b]. *)
Lemma everyAtIndex_prefix (a b before : list string) :
  forallb (fun vi => match nth_error (before ++ b) (snd vi) with
                     | Some w => (fst vi =? w)%string
                     | None => false
                     end)
          (combine a (seq (length before) (length a))) = true
  <-> firstn (length a) b = a.
Proof.
  revert b before. induction a as [|x a IH]; intros b before; simpl.
  - split; reflexivity.
  - rewrite nth_error_app2 by lia. rewrite Nat.sub_diag.
    destruct b as [|y b]; simpl.
    + split; discriminate.
    + rewrite andb_true_iff, String.eqb_eq.
      specialize (IH b (before ++ [y])).
      rewrite <- app_assoc in IH. simpl in IH.
      rewrite length_app in IH. simpl in IH.
      rewrite Nat.add_1_r in IH. rewrite IH.
      split.
      * intros [-> ->]. reflexivity.
      * intros [= -> E]. split; [reflexivity|exact E].
Qed.

Lemma areArgsEqual_eq a b : areArgsEqual a b = true <-> a = b.
Proof.
  destruct a as [a|], b as [b|]; simpl; split; try congruence.
  - destruct (length a =? length b)%nat eqn:L; simpl; [|discriminate].
    apply Nat.eqb_eq in L. intros H.
    apply (everyAtIndex_prefix a b []) in H.
    rewrite L, firstn_all in H. congruence.
  - intros [= ->]. rewrite Nat.eqb_refl. simpl.
    apply (everyAtIndex_prefix b b []). apply firstn_all.
Qed.

Lemma isSameConfig_eq a b : isSameConfig a b = true <-> a = b.
Proof.
  unfold isSameConfig. rewrite !andb_true_iff.
  rewrite AutomatorMode_eqb_eq, !sameString_eq, !sameNumber_eq,
    !sameBoolean_eq, areArgsEqual_eq.
  split.
  - destruct a, b; simpl. intuition congruence.
  - intros ->. intuition reflexivity.
Qed.

Lemma isSameConfig_refl c : isSameConfig c c = true.
Proof. apply isSameConfig_eq. reflexivity. Qed.

(** Order matters in [args]. *)
Example areArgsEqual_reordered :
  areArgsEqual (Some ["--a"; "--b"]) (Some ["--b"; "--a"]) = false.
Proof. reflexivity. Qed.

(** ** Counting calls *)

Lemma establishments_app cs cs' :
  establishments (cs ++ cs') = establishments cs + establishments cs'.
Proof. unfold establishments. rewrite filter_app, length_app. reflexivity. Qed.

Section LifecycleProperties.

Variable StringToNumber : string -> float.
Variable automator : Automator.

Abbreviation resolveConfig := (Config.resolveConfig StringToNumber).
Abbreviation close := (Client.close automator).
Abbreviation connect := (Client.connect automator).
Abbreviation establish := (Client.establish automator).
Abbreviation withMiniProgram := (Client.withMiniProgram StringToNumber automator).
Abbreviation closedFrom := (closedFrom automator).
Abbreviation afterReconnect := (afterReconnect automator).
Abbreviation beforeConnect := (beforeConnect automator).
Abbreviation runHandler := (runHandler automator).

(** *** Teardown *)

Lemma close_session log h s :
  miniProgram (this s) = Some h ->
  close log s = (Return tt, closedFrom log h s).
Proof.
  intros H. unfold Client.close, closedFrom, teardownOf. rewrite H.
  unfold miniProgramClose, miniProgramDisconnect.
  destruct (option_map mode (config (this s))) as [[]|]; reflexivity.
Qed.

Lemma close_no_session log s :
  miniProgram (this s) = None -> close log s = (Return tt, s).
Proof. intros H. unfold Client.close. rewrite H. reflexivity. Qed.

Lemma close_Return log s : fst (close log s) = Return tt.
Proof.
  destruct (miniProgram (this s)) as [h|] eqn:H.
  - rewrite (close_session _ _ _ H). reflexivity.
  - rewrite (close_no_session _ _ H). reflexivity.
Qed.

Lemma close_eq log s : close log s = (Return tt, snd (close log s)).
Proof.
  pose proof (close_Return log s) as H.
  destruct (close log s) as [r s']. simpl in *. congruence.
Qed.

Lemma closedFrom_noSession log h s : noSession (closedFrom log h s).
Proof. split; reflexivity. Qed.

Lemma closedFrom_listening log h s : ~ In h (listening (closedFrom log h s)).
Proof.
  unfold closedFrom. simpl. intros I.
  assert (L : forall d, listening
            (match d with
             | Some error =>
                 logIfGiven log Warn "Failed to close WeChat DevTools cleanly"
                            (MessageData (messageOf error))
                            (record (teardownOf (config (this s)) h) s)
             | None =>
                 logIfGiven log Debug "Closed WeChat DevTools automation session"
                            NoData (record (teardownOf (config (this s)) h) s)
             end) = listening s)
    by (intros [e|]; destruct log; reflexivity).
  rewrite L in I. apply filter_In in I as [_ I].
  rewrite Nat.eqb_refl in I. discriminate.
Qed.

(** What [close] adds to the calls: the teardown call, one log line
    when a logger is given, and the removal of the listeners. *)
Lemma closedFrom_calls h s :
  exists logged,
    calls (closedFrom true h s) =
      calls s ++ [teardownOf (config (this s)) h; logged; RemoveAllListeners h].
Proof.
  unfold closedFrom. simpl.
  destruct (match option_map mode (config (this s)) with
            | Some launch => closeOutcome automator (calls s) h
            | _ => disconnectOutcome automator (calls s) h
            end) as [e|]; simpl; eexists; rewrite <- !app_assoc; reflexivity.
Qed.

Lemma teardownOf_not_establishment stored h :
  isEstablishment (teardownOf stored h) = false.
Proof. unfold teardownOf. destruct (option_map mode stored) as [[]|]; reflexivity. Qed.

Lemma close_establishments log s :
  establishments (calls (snd (close log s))) = establishments (calls s).
Proof.
  destruct (miniProgram (this s)) as [h|] eqn:H.
  - rewrite (close_session _ _ _ H). unfold closedFrom. simpl.
    destruct (match option_map mode (config (this s)) with
              | Some launch => closeOutcome automator (calls s) h
              | _ => disconnectOutcome automator (calls s) h
              end) as [e|]; destruct log; simpl;
      rewrite ?establishments_app; unfold establishments; simpl;
      rewrite ?teardownOf_not_establishment; simpl; lia.
  - rewrite (close_no_session _ _ H). reflexivity.
Qed.

Lemma close_noSession log s : paired s -> noSession (snd (close log s)).
Proof.
  intros P. destruct (miniProgram (this s)) as [h|] eqn:H.
  - rewrite (close_session _ _ _ H). apply closedFrom_noSession.
  - rewrite (close_no_session _ _ H). split; [assumption|]. apply P, H.
Qed.

(** [close] from a state in which handle and configuration are paired. *)
Lemma close_clears_paired log s :
  paired s ->
  exists s',
    close log s = (Return tt, s')
    /\ noSession s'
    /\ match miniProgram (this s) with
       | Some h => ~ In h (listening s')
       | None => s' = s
       end
    /\ close log s' = (Return tt, s').
Proof.
  intros P. exists (snd (close log s)).
  split; [apply close_eq|]. split; [apply close_noSession, P|].
  split.
  - destruct (miniProgram (this s)) as [h|] eqn:H.
    + rewrite (close_session _ _ _ H). apply closedFrom_listening.
    + rewrite (close_no_session _ _ H). reflexivity.
  - apply close_no_session. apply (close_noSession log s P).
Qed.

(** *** Establishing a session *)

Lemma establish_unfold config s :
  establish config s =
    match connect config (beforeConnect config s) with
    | (inl h, s') =>
        (Return tt, attachLogging h (setSession (Some h) (Some config) s'))
    | (inr error, s') =>
        (Throw (UserError (failedTo config (messageOf error))),
         setSession None None s')
    end.
Proof.
  unfold Client.establish, bindM, beforeConnect.
  pose proof (close_Return true s) as F.
  destruct (close true s) as [r s1]. simpl in F. subst r. reflexivity.
Qed.

Lemma connect_calls config s :
  calls (snd (connect config s)) = calls s ++ [establishmentOf config].
Proof. unfold Client.connect, establishmentOf. destruct (mode config); reflexivity. Qed.

Lemma connect_this config s : this (snd (connect config s)) = this s.
Proof. unfold Client.connect. destruct (mode config); reflexivity. Qed.

Lemma establishmentOf_is_establishment config :
  isEstablishment (establishmentOf config) = true.
Proof. unfold establishmentOf. destruct (mode config); reflexivity. Qed.

(** *** The steps of [withMiniProgram] *)

Lemma withMiniProgram_resolved {T} env options
    (handler : option Handle -> WeappConnectionConfig -> completion T) s config :
  resolveConfig env (overrides options) (Client.config (this s)) = Return config ->
  withMiniProgram env options handler s =
    let s1 := afterReconnect options s in
    if canReuse config s1 then runHandler handler config s1
    else match establish config s1 with
         | (Return _, s2) => runHandler handler config s2
         | (Throw e, s2) => (Throw e, s2)
         end.
Proof.
  intros R. unfold Client.withMiniProgram. rewrite R.
  unfold bindM, afterReconnect.
  destruct (reconnect options).
  - pose proof (close_Return true s) as F.
    destruct (close true s) as [r s1]. simpl in F. subst r. simpl.
    destruct (canReuse config s1); [reflexivity|].
    destruct (establish config s1) as [[u|e] s2]; reflexivity.
  - unfold ret.
    destruct (canReuse config s); [reflexivity|].
    destruct (establish config s) as [[u|e] s2]; reflexivity.
Qed.

Lemma runHandler_result {T}
    (handler : option Handle -> WeappConnectionConfig -> completion T) config s :
  fst (runHandler handler config s) = handler (miniProgram (this s)) config.
Proof.
  unfold runHandler, tryFinally.
  destruct (autoClose config) as [[]|]; try reflexivity.
  pose proof (close_Return true s) as F.
  destruct (close true s) as [r s1]. simpl in F. subst r. reflexivity.
Qed.

Lemma runHandler_autoClose {T}
    (handler : option Handle -> WeappConnectionConfig -> completion T) config s :
  autoClose config = Some true ->
  runHandler handler config s =
    (handler (miniProgram (this s)) config, snd (close true s)).
Proof.
  intros A. unfold runHandler, tryFinally. rewrite A.
  pose proof (close_Return true s) as F.
  destruct (close true s) as [r s1]. simpl in F. subst r. reflexivity.
Qed.

Lemma runHandler_keep {T}
    (handler : option Handle -> WeappConnectionConfig -> completion T) config s :
  autoClose config <> Some true ->
  runHandler handler config s = (handler (miniProgram (this s)) config, s).
Proof.
  intros A. unfold runHandler, tryFinally.
  destruct (autoClose config) as [[]|]; try reflexivity. congruence.
Qed.

Lemma canReuse_true config s :
  canReuse config s = true ->
  exists h, miniProgram (this s) = Some h /\ Client.config (this s) = Some config.
Proof.
  unfold canReuse.
  destruct (miniProgram (this s)) as [h|]; [|discriminate].
  destruct (Client.config (this s)) as [stored|]; [|discriminate].
  intros E. apply isSameConfig_eq in E. subst. eauto.
Qed.

Lemma canReuse_same config h s :
  miniProgram (this s) = Some h -> Client.config (this s) = Some config ->
  canReuse config s = true.
Proof.
  intros M C. unfold canReuse. rewrite M, C. apply isSameConfig_refl.
Qed.

Lemma canReuse_different config stored s :
  Client.config (this s) = Some stored -> stored <> config ->
  canReuse config s = false.
Proof.
  intros C N. unfold canReuse. rewrite C.
  destruct (miniProgram (this s)); [|reflexivity].
  destruct (isSameConfig stored config) eqn:E; [|reflexivity].
  apply isSameConfig_eq in E. contradiction.
Qed.

(** C5.  When the call made to establish a new session fails, the
    manager ends without handle and without configuration, and the
    caller receives a [UserError] that says whether a connect or a launch
    was attempted and carries the message of the underlying failure. *)
Theorem failed_establishment_leaves_no_session {T} env options
    (handler : option Handle -> WeappConnectionConfig -> completion T)
    s config error s' :
  resolveConfig env (overrides options) (Client.config (this s)) = Return config ->
  canReuse config (afterReconnect options s) = false ->
  connect config (beforeConnect config (afterReconnect options s)) = (inr error, s') ->
  withMiniProgram env options handler s =
    (Throw (UserError
       ("Failed to "
          ++ (match mode config with
              | Config.connect => "connect to"
              | launch => "launch"
              end)
          ++ " WeChat DevTools: " ++ messageOf error)),
     setSession None None s')
  /\ noSession (setSession None None s').
Proof.
  intros R N C. rewrite (withMiniProgram_resolved _ _ _ _ _ R). cbv zeta.
  rewrite N, establish_unfold, C. split; [reflexivity|split; reflexivity].
Qed.

(** C7.  When the resolved configuration has [autoClose] set, the manager
    holds no session once [withMiniProgram] has returned, whether a
    session could not be established, or the handler returned, or the
    handler threw; and when the handler ran, its own completion is what
    [withMiniProgram] returns. *)
Theorem autoClose_leaves_no_session {T} env options
    (handler : option Handle -> WeappConnectionConfig -> completion T)
    s config :
  resolveConfig env (overrides options) (Client.config (this s)) = Return config ->
  autoClose config = Some true ->
  let s1 := afterReconnect options s in
  noSession (snd (withMiniProgram env options handler s))
  /\ fst (withMiniProgram env options handler s) =
       if canReuse config s1 then handler (miniProgram (this s1)) config
       else match connect config (beforeConnect config s1) with
            | (inl h, _) => handler (Some h) config
            | (inr error, _) =>
                Throw (UserError (failedTo config (messageOf error)))
            end.
Proof.
  intros R A s1. rewrite (withMiniProgram_resolved _ _ _ _ _ R). cbv zeta.
  fold s1. destruct (canReuse config s1) eqn:CR.
  - rewrite (runHandler_autoClose _ _ _ A). simpl. split; [|reflexivity].
    destruct (canReuse_true _ _ CR) as (h & H & _).
    rewrite (close_session _ _ _ H). apply closedFrom_noSession.
  - rewrite establish_unfold.
    destruct (connect config (beforeConnect config s1)) as [[h|error] s2].
    + rewrite (runHandler_autoClose _ _ _ A). simpl. split; [|reflexivity].
      rewrite (close_session true h); [apply closedFrom_noSession|reflexivity].
    + simpl. split; [split|]; reflexivity.
Qed.

(** *** Reuse *)

Lemma extends_refl s : extends s s.
Proof. exists []. symmetry. apply app_nil_r. Qed.

Lemma extends_trans s1 s2 s3 : extends s1 s2 -> extends s2 s3 -> extends s1 s3.
Proof.
  intros [r1 E1] [r2 E2]. exists (r1 ++ r2). rewrite E2, E1. symmetry. apply app_assoc.
Qed.

Lemma close_extends log s : extends s (snd (close log s)).
Proof.
  destruct (miniProgram (this s)) as [h|] eqn:H.
  - rewrite (close_session _ _ _ H). unfold extends, closedFrom.
    destruct (match option_map mode (config (this s)) with
              | Some launch => closeOutcome automator (calls s) h
              | _ => disconnectOutcome automator (calls s) h
              end) as [e|]; destruct log; simpl; eexists;
      rewrite <- ?app_assoc; reflexivity.
  - rewrite (close_no_session _ _ H). apply extends_refl.
Qed.

Lemma runHandler_extends {T}
    (handler : option Handle -> WeappConnectionConfig -> completion T) config s :
  extends s (snd (runHandler handler config s)).
Proof.
  destruct (autoClose config) as [[]|] eqn:A.
  - rewrite (runHandler_autoClose _ _ _ A). apply close_extends.
  - rewrite runHandler_keep by congruence. apply extends_refl.
  - rewrite runHandler_keep by congruence. apply extends_refl.
Qed.

(** After a call that leaves a session behind, the stored configuration
    is the one the call resolved, and it does not ask for auto-close. *)
Lemma withMiniProgram_session {T} env options
    (handler : option Handle -> WeappConnectionConfig -> completion T)
    s config result s' h :
  resolveConfig env (overrides options) (Client.config (this s)) = Return config ->
  withMiniProgram env options handler s = (result, s') ->
  miniProgram (this s') = Some h ->
  Client.config (this s') = Some config /\ autoClose config <> Some true.
Proof.
  intros R W H. rewrite (withMiniProgram_resolved _ _ _ _ _ R) in W. cbv zeta in W.
  assert (K : forall s1 h1,
             miniProgram (this s1) = Some h1 ->
             Client.config (this s1) = Some config ->
             runHandler handler config s1 = (result, s') ->
             Client.config (this s') = Some config /\ autoClose config <> Some true).
  { intros s1 h1 M1 C1 E. destruct (autoClose config) as [[]|] eqn:A.
    - rewrite (runHandler_autoClose _ _ _ A) in E. injection E as _ <-.
      rewrite (close_session _ _ _ M1) in H. discriminate.
    - rewrite runHandler_keep in E by congruence. injection E as _ <-.
      split; [exact C1|discriminate].
    - rewrite runHandler_keep in E by congruence. injection E as _ <-.
      split; [exact C1|discriminate]. }
  destruct (canReuse config (afterReconnect options s)) eqn:CR.
  - destruct (canReuse_true _ _ CR) as (h' & M1 & C1). exact (K _ _ M1 C1 W).
  - rewrite establish_unfold in W.
    destruct (connect config (beforeConnect config (afterReconnect options s)))
      as [[h'|error] s2].
    + exact (K (attachLogging h' (setSession (Some h') (Some config) s2)) h'
               eq_refl eq_refl W).
    + injection W as _ <-. discriminate.
Qed.

(** The first call of a manager that holds no session: one entry in the
    log, one call to the automator, the two listeners. *)
Lemma withMiniProgram_from_no_session {T} env options
    (handler : option Handle -> WeappConnectionConfig -> completion T)
    s config result s' h :
  resolveConfig env (overrides options) (Client.config (this s)) = Return config ->
  miniProgram (this s) = None ->
  withMiniProgram env options handler s = (result, s') ->
  miniProgram (this s') = Some h ->
  calls s' = calls s ++ [establishingLog config; establishmentOf config;
                         On h "console"; On h "exception"].
Proof.
  intros R N W H.
  destruct (withMiniProgram_session _ _ _ _ _ _ _ _ R W H) as [_ A].
  rewrite (withMiniProgram_resolved _ _ _ _ _ R) in W. cbv zeta in W.
  assert (S1 : afterReconnect options s = s).
  { unfold afterReconnect. destruct (reconnect options); [|reflexivity].
    rewrite (close_no_session _ _ N). reflexivity. }
  rewrite S1 in W.
  assert (CR : canReuse config s = false) by (unfold canReuse; rewrite N; reflexivity).
  rewrite CR, establish_unfold in W.
  unfold beforeConnect in W. rewrite (close_no_session _ _ N) in W. simpl in W.
  pose proof (connect_calls config
                (logWith Info "Establishing WeChat DevTools automation session"
                   (SessionData (mode config) (projectPath config)
                      (wsEndpoint config) (port config)) s)) as CC.
  destruct (connect config _) as [[h'|error] s2].
  - rewrite (runHandler_keep _ _ _ A) in W. injection W as _ <-.
    simpl in H. injection H as ->. simpl in *. rewrite CC.
    unfold establishingLog. rewrite <- !app_assoc. reflexivity.
  - injection W as _ <-. discriminate.
Qed.

(** A configuration that differs from the stored one forces a teardown
    and a new call to the automator. *)
Lemma withMiniProgram_reconnects {T} env options
    (handler : option Handle -> WeappConnectionConfig -> completion T)
    s stored config h :
  miniProgram (this s) = Some h ->
  Client.config (this s) = Some stored ->
  resolveConfig env (overrides options) (Some stored) = Return config ->
  stored <> config ->
  exists logged rest,
    calls (snd (withMiniProgram env options handler s)) =
      calls s ++ [teardownOf (Some stored) h; logged; RemoveAllListeners h;
                  establishingLog config; establishmentOf config] ++ rest.
Proof.
  intros H C R N. rewrite <- C in R.
  rewrite (withMiniProgram_resolved _ _ _ _ _ R). cbv zeta.
  destruct (closedFrom_calls h s) as [logged L]. rewrite C in L.
  exists logged.
  assert (B : exists s1,
             canReuse config (afterReconnect options s) = false
             /\ beforeConnect config (afterReconnect options s) =
                  logWith Info "Establishing WeChat DevTools automation session"
                    (SessionData (mode config) (projectPath config)
                       (wsEndpoint config) (port config)) s1
             /\ calls s1 = calls s ++ [teardownOf (Some stored) h; logged;
                                       RemoveAllListeners h]).
  { exists (closedFrom true h s). unfold afterReconnect, beforeConnect.
    destruct (reconnect options).
    - rewrite (close_session _ _ _ H). simpl.
      split; [reflexivity|]. split; [reflexivity|exact L].
    - rewrite (canReuse_different _ _ _ C N).
      rewrite (close_session _ _ _ H). simpl.
      split; [reflexivity|]. split; [reflexivity|exact L]. }
  destruct B as (s1 & CR & BC & L1).
  rewrite CR, establish_unfold, BC.
  pose proof (connect_calls config
                (logWith Info "Establishing WeChat DevTools automation session"
                   (SessionData (mode config) (projectPath config)
                      (wsEndpoint config) (port config)) s1)) as CC.
  simpl in CC. rewrite L1 in CC.
  destruct (connect config _) as [[h'|error] s2]; simpl in CC.
  - destruct (runHandler_extends handler config
                (attachLogging h' (setSession (Some h') (Some config) s2)))
      as [rest E].
    exists ([On h' "console"; On h' "exception"] ++ rest).
    rewrite E. simpl. rewrite CC. unfold establishingLog.
    rewrite <- !app_assoc. reflexivity.
  - exists []. simpl. rewrite CC. unfold establishingLog.
    rewrite <- !app_assoc. reflexivity.
Qed.

(** C4 (amended).  Let a call resolve its configuration and leave a
    session behind (the call to the automator succeeded and the
    configuration does not ask for auto-close).  Then a second call with
    the same overrides and environment, and no forced reconnect, makes no
    call at all on the automator: it hands the stored handle to its
    handler and leaves the state as it is; counted from a manager without
    session, the two calls invoke connect or launch exactly once.  And
    whenever a later call resolves a configuration that differs from the
    stored one in any field, [args] being compared as a sequence, it
    tears the session down and invokes connect or launch anew. *)
Theorem identical_overrides_reuse_the_session {T1 T2 T3} env given forced
    (handler1 : option Handle -> WeappConnectionConfig -> completion T1)
    (handler2 : option Handle -> WeappConnectionConfig -> completion T2)
    s0 config result1 s1 h :
  resolveConfig env given (Client.config (this s0)) = Return config ->
  withMiniProgram env {| overrides := given; reconnect := forced |} handler1 s0
    = (result1, s1) ->
  miniProgram (this s1) = Some h ->
  withMiniProgram env {| overrides := given; reconnect := false |} handler2 s1
    = (handler2 (Some h) config, s1)
  /\ (miniProgram (this s0) = None ->
      establishments
        (calls (snd (withMiniProgram env {| overrides := given; reconnect := false |}
                                     handler2 s1)))
        = S (establishments (calls s0)))
  /\ (forall env' options'
             (handler3 : option Handle -> WeappConnectionConfig -> completion T3)
             config',
        resolveConfig env' (overrides options') (Some config) = Return config' ->
        config <> config' ->
        exists logged rest,
          calls (snd (withMiniProgram env' options' handler3 s1)) =
            calls s1 ++ [teardownOf (Some config) h; logged; RemoveAllListeners h;
                         establishingLog config'; establishmentOf config'] ++ rest).
Proof.
  intros R W H.
  destruct (withMiniProgram_session env {| overrides := given; reconnect := forced |}
              handler1 s0 config result1 s1 h R W H) as [C A].
  assert (W2 : withMiniProgram env {| overrides := given; reconnect := false |}
                               handler2 s1 = (handler2 (Some h) config, s1)).
  { assert (R2 : resolveConfig env
                   (overrides {| overrides := given; reconnect := false |})
                   (Client.config (this s1)) = Return config)
      by (rewrite C; apply (resolveConfig_again _ _ _ _ _ R)).
    rewrite (withMiniProgram_resolved _ _ _ _ _ R2). cbv zeta.
    unfold afterReconnect. simpl.
    rewrite (canReuse_same _ _ _ H C), (runHandler_keep _ _ _ A), H.
    reflexivity. }
  split; [exact W2|]. split.
  - intros N. rewrite W2. simpl.
    rewrite (withMiniProgram_from_no_session env
               {| overrides := given; reconnect := forced |}
               handler1 s0 config result1 s1 h R N W H).
    rewrite establishments_app. unfold establishments at 2. simpl.
    rewrite establishmentOf_is_establishment. simpl. lia.
  - intros env' options' handler3 config' R' N.
    apply (withMiniProgram_reconnects env' options' handler3 s1 config config' h H C R' N).
Qed.

(** Handle and configuration stay paired. *)
Lemma withMiniProgram_paired {T} env options
    (handler : option Handle -> WeappConnectionConfig -> completion T) s :
  paired s -> paired (snd (withMiniProgram env options handler s)).
Proof.
  intros P.
  destruct (resolveConfig env (overrides options) (Client.config (this s)))
    as [config|e] eqn:R.
  - rewrite (withMiniProgram_resolved _ _ _ _ _ R). cbv zeta.
    assert (P1 : paired (afterReconnect options s)).
    { unfold afterReconnect. destruct (reconnect options); [|exact P].
      destruct (close_noSession true s P) as [M C]. split; intros _; assumption. }
    assert (K : forall s', paired s' -> paired (snd (runHandler handler config s'))).
    { intros s' P'. destruct (autoClose config) as [[]|] eqn:A.
      - rewrite (runHandler_autoClose _ _ _ A). simpl.
        destruct (close_noSession true s' P') as [M C]. split; intros _; assumption.
      - rewrite runHandler_keep by congruence. exact P'.
      - rewrite runHandler_keep by congruence. exact P'. }
    destruct (canReuse config (afterReconnect options s)); [apply K, P1|].
    rewrite establish_unfold.
    destruct (connect config _) as [[h|error] s2].
    + apply K. split; discriminate.
    + split; reflexivity.
  - unfold Client.withMiniProgram. rewrite R. destruct e; exact P.
Qed.

End LifecycleProperties.

(** ** Log capture *)

Section LogProperties.

Variable NumberToString : float -> string.

Abbreviation entryOf := (Client.entryOf NumberToString).
Abbreviation observe := (Client.observe NumberToString).
Abbreviation observeAll := (Client.observeAll NumberToString).
Abbreviation captured := (captured NumberToString).

Lemma skipn_S_tl {A} d (l : list A) : skipn (S d) l = tl (skipn d l).
Proof.
  revert l. induction d as [|d IH]; intros [|x l]; try reflexivity.
  rewrite skipn_cons. rewrite IH. reflexivity.
Qed.

Lemma keepLast_short {A} n (l : list A) : length l <= n -> keepLast n l = l.
Proof.
  intros H. unfold keepLast. replace (length l - n) with 0 by lia. reflexivity.
Qed.

Lemma keepLast_length {A} n (l : list A) : length (keepLast n l) <= n.
Proof. unfold keepLast. rewrite length_skipn. lia. Qed.

Lemma pushLog_keepLast logEntry (history : list ConsoleLogEntry) :
  pushLog logEntry (keepLast maxLogs history) =
    keepLast maxLogs (history ++ [logEntry]).
Proof.
  assert (P : 0 < maxLogs) by (unfold maxLogs; lia).
  unfold pushLog, keepLast.
  rewrite !length_app, length_skipn. simpl.
  destruct (Nat.ltb_spec maxLogs (length history - (length history - maxLogs) + 1))
    as [L|L].
  - replace (length history + 1 - maxLogs) with (S (length history - maxLogs)) by lia.
    rewrite skipn_S_tl, skipn_app.
    replace (length history - maxLogs - length history) with 0 by lia.
    reflexivity.
  - replace (length history - maxLogs) with 0 by lia.
    replace (length history + 1 - maxLogs) with 0 by lia.
    reflexivity.
Qed.

(** A listener pushes the entry it built, and nothing when it built
    none. *)
Lemma observe_consoleLogs e s :
  consoleLogs (this (observe e s)) =
    match entryOf e with
    | Some logEntry => pushLog logEntry (consoleLogs (this s))
    | None => consoleLogs (this s)
    end.
Proof.
  unfold Client.observe, Client.entryOf, onConsole, onException.
  destruct (kind e).
  - destruct (consoleEntry NumberToString (payload e) (observedAt e)); reflexivity.
  - destruct (exceptionEntry NumberToString (payload e) (observedAt e)); reflexivity.
Qed.

Lemma observeAll_consoleLogs events : forall s history,
  consoleLogs (this s) = keepLast maxLogs history ->
  consoleLogs (this (observeAll events s)) =
    keepLast maxLogs (history ++ captured events).
Proof.
  induction events as [|e events IH]; intros s history H; simpl.
  - rewrite app_nil_r. exact H.
  - pose proof (observe_consoleLogs e s) as O.
    destruct (entryOf e) as [logEntry|].
    + rewrite (IH (observe e s) (history ++ [logEntry])).
      * rewrite <- app_assoc. reflexivity.
      * rewrite O, H. apply pushLog_keepLast.
    + apply IH. rewrite O. exact H.
Qed.

(** The buffer after a sequence of events, from a buffer within capacity. *)
Lemma observeAll_keepLast events s :
  length (consoleLogs (this s)) <= maxLogs ->
  getConsoleLogs (observeAll events s) =
    keepLast maxLogs (consoleLogs (this s) ++ captured events).
Proof.
  intros B. apply observeAll_consoleLogs. symmetry. apply keepLast_short, B.
Qed.


Lemma pushLog_bounded logEntry logs :
  length logs <= maxLogs -> length (pushLog logEntry logs) <= maxLogs.
Proof.
  intros B. rewrite <- (keepLast_short maxLogs logs B), pushLog_keepLast.
  apply keepLast_length.
Qed.

Lemma observe_session e s :
  miniProgram (this (observe e s)) = miniProgram (this s)
  /\ config (this (observe e s)) = config (this s).
Proof.
  unfold Client.observe, onConsole, onException.
  destruct (kind e).
  - destruct (consoleEntry NumberToString (payload e) (observedAt e));
      split; reflexivity.
  - destruct (exceptionEntry NumberToString (payload e) (observedAt e));
      split; reflexivity.
Qed.

Lemma observe_listening e s : listening (observe e s) = listening s.
Proof.
  unfold Client.observe, onConsole, onException.
  destruct (kind e).
  - destruct (consoleEntry NumberToString (payload e) (observedAt e)); reflexivity.
  - destruct (exceptionEntry NumberToString (payload e) (observedAt e)); reflexivity.
Qed.

End LogProperties.

(** ** Where the listeners sit *)

Section Listeners.

Variable StringToNumber : string -> float.
Variable NumberToString : float -> string.
Variable automator : Automator.

Abbreviation resolveConfig := (Config.resolveConfig StringToNumber).
Abbreviation close := (Client.close automator).
Abbreviation connect := (Client.connect automator).
Abbreviation establish := (Client.establish automator).
Abbreviation withMiniProgram := (Client.withMiniProgram StringToNumber automator).
Abbreviation closedFrom := (closedFrom automator).
Abbreviation afterReconnect := (afterReconnect automator).
Abbreviation beforeConnect := (beforeConnect automator).
Abbreviation runHandler := (runHandler automator).
Abbreviation reachable := (reachable StringToNumber NumberToString automator).
Abbreviation observe := (Client.observe NumberToString).
Abbreviation observeAll := (Client.observeAll NumberToString).
Abbreviation emit := (Client.emit NumberToString).
Abbreviation emitAll := (Client.emitAll NumberToString).

Lemma withMiniProgram_unresolved {T} env options
    (handler : option Handle -> WeappConnectionConfig -> completion T) s e :
  resolveConfig env (overrides options) (Client.config (this s)) = Throw e ->
  withMiniProgram env options handler s =
    (Throw match e with
           | ConfigError message => UserError message
           | _ => e
           end, s).
Proof.
  intros R. unfold Client.withMiniProgram. rewrite R. destruct e; reflexivity.
Qed.

Lemma closedFrom_untracked log h s :
  tracked s -> miniProgram (this s) = Some h ->
  listening (closedFrom log h s) = [].
Proof.
  unfold tracked. intros T M. rewrite M in T.
  unfold closedFrom. simpl.
  assert (L : forall d, listening
            (match d with
             | Some error =>
                 logIfGiven log Warn "Failed to close WeChat DevTools cleanly"
                            (MessageData (messageOf error))
                            (record (teardownOf (config (this s)) h) s)
             | None =>
                 logIfGiven log Debug "Closed WeChat DevTools automation session"
                            NoData (record (teardownOf (config (this s)) h) s)
             end) = listening s)
    by (intros [e|]; destruct log; reflexivity).
  rewrite L, T. simpl. rewrite Nat.eqb_refl. reflexivity.
Qed.

Lemma close_tracked log s : tracked s -> tracked (snd (close log s)).
Proof.
  intros T. destruct (miniProgram (this s)) as [h|] eqn:M.
  - rewrite (close_session _ _ _ _ M). simpl snd.
    unfold tracked. rewrite (closedFrom_untracked _ _ _ T M). reflexivity.
  - rewrite (close_no_session _ _ _ M). exact T.
Qed.

Lemma close_untracked log s :
  tracked s -> listening (snd (close log s)) = [].
Proof.
  intros T. destruct (miniProgram (this s)) as [h|] eqn:M.
  - rewrite (close_session _ _ _ _ M). apply (closedFrom_untracked _ _ _ T M).
  - rewrite (close_no_session _ _ _ M). simpl. unfold tracked in T.
    rewrite M in T. exact T.
Qed.

Lemma connect_listening config s :
  listening (snd (connect config s)) = listening s.
Proof. unfold Client.connect. destruct (mode config); reflexivity. Qed.

Lemma establish_tracked config s :
  tracked s -> tracked (snd (establish config s)).
Proof.
  intros T. rewrite establish_unfold.
  pose proof (connect_listening config (beforeConnect config s)) as L.
  unfold beforeConnect in L at 2. simpl in L.
  rewrite (close_untracked true s T) in L.
  destruct (connect config (beforeConnect config s)) as [[h|error] s2];
    simpl in L; unfold tracked; simpl; rewrite L; reflexivity.
Qed.

Lemma runHandler_tracked {T}
    (handler : option Handle -> WeappConnectionConfig -> completion T) config s :
  tracked s -> tracked (snd (runHandler handler config s)).
Proof.
  intros K. destruct (autoClose config) as [[]|] eqn:A.
  - rewrite (runHandler_autoClose _ _ _ _ A). apply close_tracked, K.
  - rewrite runHandler_keep by congruence. exact K.
  - rewrite runHandler_keep by congruence. exact K.
Qed.

Lemma withMiniProgram_tracked {T} env options
    (handler : option Handle -> WeappConnectionConfig -> completion T) s :
  tracked s -> tracked (snd (withMiniProgram env options handler s)).
Proof.
  intros K.
  destruct (resolveConfig env (overrides options) (Client.config (this s)))
    as [config|e] eqn:R.
  - rewrite (withMiniProgram_resolved _ _ _ _ _ _ _ R). cbv zeta.
    assert (K1 : tracked (afterReconnect options s)).
    { unfold afterReconnect. destruct (reconnect options); [|exact K].
      apply close_tracked, K. }
    destruct (canReuse config (afterReconnect options s)).
    + apply runHandler_tracked, K1.
    + pose proof (establish_tracked config _ K1) as K2.
      destruct (establish config (afterReconnect options s)) as [[[]|e] s2].
      * apply runHandler_tracked, K2.
      * exact K2.
  - rewrite (withMiniProgram_unresolved _ _ _ _ _ R). exact K.
Qed.

(** On the handle of the session, an event runs the listener once; on
    any other handle it runs nothing. *)
Lemma emit_tracked h e s :
  tracked s ->
  emit h e s =
    match miniProgram (this s) with
    | Some active => if (active =? h)%nat then observe e s else s
    | None => s
    end.
Proof.
  intros K. unfold Client.emit. rewrite K.
  destruct (miniProgram (this s)) as [active|]; simpl; [|reflexivity].
  destruct (Nat.eq_dec active h) as [->|N].
  - rewrite Nat.eqb_refl. reflexivity.
  - apply Nat.eqb_neq in N. rewrite N. reflexivity.
Qed.



End Listeners.

(** ** Reachable states *)

Section Reachability.

Variable StringToNumber : string -> float.
Variable NumberToString : float -> string.
Variable automator : Automator.

Abbreviation reachable := (reachable StringToNumber NumberToString automator).
Abbreviation close := (Client.close automator).
Abbreviation withMiniProgram := (Client.withMiniProgram StringToNumber automator).
Abbreviation entryOf := (Client.entryOf NumberToString).
Abbreviation observe := (Client.observe NumberToString).
Abbreviation observeAll := (Client.observeAll NumberToString).
Abbreviation emit := (Client.emit NumberToString).
Abbreviation emitAll := (Client.emitAll NumberToString).
Abbreviation captured := (captured NumberToString).

Lemma close_consoleLogs log s :
  consoleLogs (this (snd (close log s))) = consoleLogs (this s).
Proof.
  destruct (miniProgram (this s)) as [h|] eqn:H.
  - rewrite (close_session _ _ _ _ H). unfold closedFrom.
    destruct (match option_map mode (config (this s)) with
              | Some launch => closeOutcome automator (calls s) h
              | _ => disconnectOutcome automator (calls s) h
              end) as [e|]; destruct log; reflexivity.
  - rewrite (close_no_session _ _ _ H). reflexivity.
Qed.

Lemma connect_consoleLogs config s :
  consoleLogs (this (snd (Client.connect automator config s))) = consoleLogs (this s).
Proof. rewrite connect_this. reflexivity. Qed.

Lemma runHandler_consoleLogs {T}
    (handler : option Handle -> WeappConnectionConfig -> completion T) config s :
  consoleLogs (this (snd (runHandler automator handler config s)))
    = consoleLogs (this s).
Proof.
  destruct (autoClose config) as [[]|] eqn:A.
  - rewrite (runHandler_autoClose _ _ _ _ A). apply close_consoleLogs.
  - rewrite runHandler_keep by congruence. reflexivity.
  - rewrite runHandler_keep by congruence. reflexivity.
Qed.

(** [withMiniProgram] does not touch the log buffer. *)
Lemma withMiniProgram_consoleLogs {T} env options
    (handler : option Handle -> WeappConnectionConfig -> completion T) s :
  consoleLogs (this (snd (withMiniProgram env options handler s)))
    = consoleLogs (this s).
Proof.
  destruct (Config.resolveConfig StringToNumber env (overrides options)
              (Client.config (this s))) as [config|e] eqn:R.
  - rewrite (withMiniProgram_resolved _ _ _ _ _ _ _ R). cbv zeta.
    assert (L1 : consoleLogs (this (afterReconnect automator options s))
                 = consoleLogs (this s)).
    { unfold afterReconnect. destruct (reconnect options); [|reflexivity].
      apply close_consoleLogs. }
    destruct (canReuse config (afterReconnect automator options s)).
    + rewrite runHandler_consoleLogs. exact L1.
    + rewrite establish_unfold.
      pose proof (connect_consoleLogs config
                    (beforeConnect automator config
                       (afterReconnect automator options s))) as L2.
      unfold beforeConnect in L2 at 2. simpl in L2.
      rewrite close_consoleLogs, L1 in L2.
      destruct (Client.connect automator config _) as [[h|error] s2]; simpl in L2.
      * rewrite runHandler_consoleLogs. exact L2.
      * exact L2.
  - unfold Client.withMiniProgram. rewrite R. destruct e; reflexivity.
Qed.

Lemma iterated_observe_session n e s :
  miniProgram (this (Nat.iter n (observe e) s)) = miniProgram (this s)
  /\ config (this (Nat.iter n (observe e) s)) = config (this s).
Proof.
  induction n as [|n [IHm IHc]]; simpl; [split; reflexivity|].
  destruct (observe_session NumberToString e (Nat.iter n (observe e) s)) as [M C].
  split; congruence.
Qed.

Lemma iterated_observe_bounded n e s :
  length (consoleLogs (this s)) <= maxLogs ->
  length (consoleLogs (this (Nat.iter n (observe e) s))) <= maxLogs.
Proof.
  intros B. induction n as [|n IH]; simpl; [exact B|].
  rewrite observe_consoleLogs.
  destruct (entryOf e); [apply pushLog_bounded, IH|exact IH].
Qed.

(** In every reachable state, handle and configuration are paired. *)
Lemma reachable_paired s : reachable s -> paired s.
Proof.
  induction 1 as [|T env options handler s _ IH|log s _ IH|h e s _ IH|s _ IH].
  - split; reflexivity.
  - apply withMiniProgram_paired, IH.
  - destruct (close_noSession automator log s IH) as [M C]. split; intros _; assumption.
  - unfold Client.emit, paired.
    destruct (iterated_observe_session
                (count_occ Nat.eq_dec (listening s) h) e s) as [M C].
    fold observe. rewrite M, C. exact IH.
  - exact IH.
Qed.

(** In every reachable state, the log buffer is within capacity. *)
Lemma reachable_bounded s : reachable s -> length (consoleLogs (this s)) <= maxLogs.
Proof.
  induction 1 as [|T env options handler s _ IH|log s _ IH|h e s _ IH|s _ IH].
  - simpl. lia.
  - rewrite withMiniProgram_consoleLogs. exact IH.
  - rewrite close_consoleLogs. exact IH.
  - apply iterated_observe_bounded, IH.
  - simpl. lia.
Qed.

Lemma iterated_observe_listening n e s :
  listening (Nat.iter n (observe e) s) = listening s.
Proof.
  induction n as [|n IH]; simpl; [reflexivity|].
  rewrite (observe_listening NumberToString). exact IH.
Qed.

(** In every reachable state, the listeners sit on the handle of the
    session and nowhere else. *)
Lemma reachable_tracked s : reachable s -> tracked s.
Proof.
  induction 1 as [|T env options handler s _ IH|log s _ IH|h e s _ IH|s _ IH].
  - reflexivity.
  - apply withMiniProgram_tracked, IH.
  - apply close_tracked, IH.
  - unfold Client.emit, tracked.
    destruct (iterated_observe_session
                (count_occ Nat.eq_dec (listening s) h) e s) as [M _].
    fold observe. rewrite iterated_observe_listening, M. exact IH.
  - exact IH.
Qed.

(** C6.  [close] never throws.  In every state the manager can reach it
    ends with neither handle nor configuration, and with no listener left
    on the handle it closed, whatever the underlying [close] or
    [disconnect] call answers; with no active session it changes nothing,
    so that a second [close] in a row returns as well and leaves the state
    as the first one left it. *)
Theorem close_never_throws_and_clears log s :
  reachable s ->
  exists s',
    close log s = (Return tt, s')
    /\ noSession s'
    /\ match miniProgram (this s) with
       | Some h => ~ In h (listening s')
       | None => s' = s
       end
    /\ close log s' = (Return tt, s').
Proof.
  intros R. apply close_clears_paired, reachable_paired, R.
Qed.


End Reachability.

(** ** Serialisation *)

(** C9 (the code at the failing input).  The serialiser of the
    log-capture path turns a binary payload into an object with one
    numeric entry per byte, and a [Date] into an empty object; the
    serialiser of the tool results turns the same values into text. *)
Theorem toSerializable_keeps_bytes_as_object bytes iso :
  toSerializable (JBuffer bytes) = SObj (bufferEntries 0 bytes)
  /\ Common.toSerializableValue (JBuffer bytes) = SStr (base64 bytes)
  /\ toSerializable (JBuffer [x68; x69]) =
       SObj [("0", SNum 104%float); ("1", SNum 105%float)]
  /\ Common.toSerializableValue (JBuffer [x68; x69]) = SStr "aGk="
  /\ toSerializable (JDate iso) = SObj []
  /\ Common.toSerializableValue (JDate iso) = SStr iso.
Proof. repeat split; reflexivity. Qed.

(** What the two serialisers agree on: scalars pass through, arrays and
    plain objects are walked, a [bigint], a symbol and a function become
    their string. *)
Lemma toSerializable_scalars b n s :
  toSerializable JUndefined = SUndefined /\ toSerializable JNull = SNull
  /\ toSerializable (JBool b) = SBool b /\ toSerializable (JNum n) = SNum n
  /\ toSerializable (JStr s) = SStr s.
Proof. repeat split; reflexivity. Qed.

Lemma toSerializable_composite items entries :
  toSerializable (JArr items) = SArr (map toSerializable items)
  /\ toSerializable (JObj entries) =
       SObj (map (fun entry => (fst entry, toSerializable (snd entry))) entries).
Proof. split; reflexivity. Qed.

Lemma toSerializable_other z description source :
  toSerializable (JBigInt z) = SStr (bigintToString z)
  /\ toSerializable (JSymbol description) = SStr ("Symbol(" ++ description ++ ")")
  /\ toSerializable (JFunction source) = SStr source.
Proof. repeat split; reflexivity. Qed.

(* ================================================================== *)
(** * The properties at concrete inputs *)
(* ================================================================== *)

(** ** The resolver on small inputs *)

Example timeout_integer :
  positiveIntSchema noNumber (Some (RNum 30000%float)) = Return (Some 30000%Z).
Proof. reflexivity. Qed.

Example timeout_fraction :
  positiveIntSchema noNumber (Some (RNum 0.5%float)) = Throw ZodError.
Proof. reflexivity. Qed.

Example timeout_zero :
  positiveIntSchema noNumber (Some (RNum 0%float)) = Throw ZodError.
Proof. reflexivity. Qed.

Example args_from_string :
  argsSchema (Some (RStr " --a  --b ")) = Return (Some ["--a"; "--b"]).
Proof. reflexivity. Qed.

Example args_blank :
  argsSchema (Some (RArr [" "; ""])) = Return None.
Proof. reflexivity. Qed.

Example blank_string_refused :
  stringSchema (Some (RStr "  ")) = Throw ZodError.
Proof. reflexivity. Qed.

(** [resolve({wsEndpoint: "ws://x"}, undefined)] infers [connect]. *)
Example endpoint_infers_connect :
  resolveConfig noNumber noEnv (Some (onlyWsEndpoint "ws://x")) None
    = Return connectedConfig.
Proof. reflexivity. Qed.

(** [resolve({}, {mode: "launch", projectPath: "/p"})] stays [launch]. *)
Example previous_launch_kept :
  resolveConfig noNumber noEnv None (Some launchedConfig) = Return launchedConfig.
Proof. reflexivity. Qed.

(** [resolve({mode: "launch"}, {mode: "connect", wsEndpoint: "ws://x"})]
    is a [launch] without project path. *)
Example explicit_launch_needs_projectPath :
  resolveConfig noNumber noEnv (Some (onlyMode "launch")) (Some connectedConfig)
    = Throw (ConfigError
        "Mini Program project path is required. Provide connection.projectPath.").
Proof. reflexivity. Qed.

(** [resolve({mode: "connect"})] with no endpoint anywhere is refused. *)
Lemma resolveConfig_validation_witness :
  envLayer noNumber noEnv = Return envLayerOfNoEnv
  /\ overrideLayer noNumber (Some (onlyMode "connect")) =
       Return (overridesOnlyMode Config.connect)
  /\ resolveConfig noNumber noEnv (Some (onlyMode "connect")) None =
       Throw (ConfigError
         "WeChat DevTools websocket endpoint is required. Provide connection.wsEndpoint.").
Proof.
  split; [reflexivity|]. split; [reflexivity|].
  exact (proj1 (resolveConfig_validation noNumber noEnv (Some (onlyMode "connect"))
                  None envLayerOfNoEnv (overridesOnlyMode Config.connect)
                  eq_refl eq_refl) eq_refl eq_refl).
Defined.



(** C10 (counterexample).  The empty string sets both fields to [false]. *)
Lemma empty_string_sets_boolean_fields_false :
  booleanSchema (Some (RStr "")) = Return (Some false)
  /\ resolveConfig noNumber (envWithFlags (Some "") (Some ""))
                   (Some (onlyProjectPath "/p")) None =
       Return {| mode := launch; cliPath := None; projectPath := Some "/p";
                 wsEndpoint := None; timeout := None; port := None;
                 account := None; ticket := None; trustProject := Some false;
                 args := None; cwd := None; autoClose := Some false |}.
Proof. split; reflexivity. Qed.

(** ["false"] and ["0"] in the environment both give [true]. *)
Lemma boolean_fields_follow_string_truthiness_witness :
  resolveConfig noNumber (envWithFlags (Some "false") (Some "0"))
                (Some (onlyProjectPath "/p")) None = Return flaggedConfig
  /\ noBooleanOverride (Some (onlyProjectPath "/p"))
  /\ trustProject flaggedConfig = Some true
  /\ autoClose flaggedConfig = Some true.
Proof.
  split; [reflexivity|]. split; [split; reflexivity|].
  exact (proj2 (proj2
    (boolean_fields_follow_string_truthiness noNumber
       (envWithFlags (Some "false") (Some "0")) (Some (onlyProjectPath "/p"))
       None flaggedConfig "false" eq_refl (conj eq_refl eq_refl)))).
Defined.

(** ** Concrete runs *)

(** C4 (counterexample).  Two calls in a row with the same overrides,
    which ask for auto-close: the automator is asked to launch twice. *)
Lemma autoClose_launches_twice :
  let s1 := snd (withMiniProgram noNumber obliging noEnv (once autoClosing)
                                 answering initial) in
  let s2 := snd (withMiniProgram noNumber obliging noEnv (once autoClosing)
                                 answering s1) in
  resolveConfig noNumber noEnv (Some autoClosing) None = Return autoClosingConfig
  /\ establishments (calls s1) = 1
  /\ establishments (calls s2) = 2.
Proof. repeat split; reflexivity. Qed.

(** An explicit [mode: "launch"] added to the overrides changes a field
    of the overrides, not the resolved configuration: the session is
    reused. *)
Example explicit_launch_reuses_the_session :
  withMiniProgram noNumber obliging noEnv
    (once explicitLaunch) answering (launched obliging)
  = (Return "done", launched obliging).
Proof. reflexivity. Qed.

Lemma identical_overrides_reuse_the_session_witness :
  resolveConfig noNumber noEnv (Some (onlyProjectPath "/p"))
                (Client.config (this initial)) = Return launchedConfig
  /\ miniProgram (this (launched obliging)) = Some 1
  /\ withMiniProgram noNumber obliging noEnv
                     {| overrides := Some (onlyProjectPath "/p"); reconnect := false |}
                     failing (launched obliging)
       = (failing (Some 1) launchedConfig, launched obliging)
  /\ establishments (calls (launched obliging)) = 1.
Proof.
  split; [reflexivity|]. split; [reflexivity|].
  destruct (identical_overrides_reuse_the_session (T3 := unit)
              noNumber obliging noEnv (Some (onlyProjectPath "/p")) false
              answering failing initial launchedConfig (Return "done")
              (launched obliging) 1 eq_refl eq_refl eq_refl) as (Reused & Once & _).
  split; [exact Reused|]. rewrite Reused in Once. exact (Once eq_refl).
Defined.

Lemma failed_establishment_leaves_no_session_witness :
  resolveConfig noNumber noEnv (Some (onlyWsEndpoint "ws://x"))
                (Client.config (this initial)) = Return connectedConfig
  /\ canReuse connectedConfig
       (afterReconnect refusing (once (onlyWsEndpoint "ws://x")) initial) = false
  /\ fst (withMiniProgram noNumber refusing noEnv (once (onlyWsEndpoint "ws://x"))
                          answering initial)
       = Throw (UserError "Failed to connect to WeChat DevTools: ECONNREFUSED")
  /\ noSession (snd (withMiniProgram noNumber refusing noEnv
                                     (once (onlyWsEndpoint "ws://x"))
                                     answering initial)).
Proof.
  split; [reflexivity|]. split; [reflexivity|].
  destruct (failed_establishment_leaves_no_session noNumber refusing noEnv
              (once (onlyWsEndpoint "ws://x")) answering initial connectedConfig
              (ErrorObject "ECONNREFUSED")
              (snd (Client.connect refusing connectedConfig
                      (beforeConnect refusing connectedConfig
                         (afterReconnect refusing (once (onlyWsEndpoint "ws://x"))
                                         initial))))
              eq_refl eq_refl eq_refl) as [Run Cleared].
  rewrite Run. split; [reflexivity|exact Cleared].
Defined.

Lemma close_never_throws_and_clears_witness :
  reachable noNumber noDigits stubborn (launched stubborn)
  /\ miniProgram (this (launched stubborn)) = Some 1
  /\ exists s',
       Client.close stubborn true (launched stubborn) = (Return tt, s')
       /\ noSession s'
       /\ ~ In 1 (listening s')
       /\ Client.close stubborn true s' = (Return tt, s').
Proof.
  assert (R : reachable noNumber noDigits stubborn (launched stubborn))
    by (apply reachable_withMiniProgram, reachable_initial).
  split; [exact R|]. split; [reflexivity|].
  exact (close_never_throws_and_clears noNumber noDigits stubborn true
           (launched stubborn) R).
Defined.

Lemma autoClose_leaves_no_session_witness :
  resolveConfig noNumber noEnv (Some autoClosing) (Client.config (this initial))
    = Return autoClosingConfig
  /\ autoClose autoClosingConfig = Some true
  /\ noSession (snd (withMiniProgram noNumber stubborn noEnv (once autoClosing)
                                     failing initial))
  /\ fst (withMiniProgram noNumber stubborn noEnv (once autoClosing) failing initial)
       = Throw (UserError "tap failed").
Proof.
  split; [reflexivity|]. split; [reflexivity|].
  exact (autoClose_leaves_no_session noNumber stubborn noEnv (once autoClosing)
           failing initial autoClosingConfig eq_refl eq_refl).
Defined.


(* ================================================================== *)
(** * Further properties of the configuration resolver *)
(* ================================================================== *)

(** ** Trimming and splitting *)

Lemma trimStart_startsClean s : startsClean (trimStart s).
Proof.
  induction s as [|c r IH]; simpl; [exact I|].
  destruct (isWhiteSpace c) eqn:E; [exact IH|exact E].
Qed.

Lemma trimStart_clean s : startsClean s -> trimStart s = s.
Proof. destruct s; simpl; [reflexivity|]. intros ->. reflexivity. Qed.

Lemma trimEnd_startsClean s : startsClean s -> startsClean (trimEnd s).
Proof.
  destruct s as [|c r]; simpl; [auto|]. intros E.
  destruct (trimEnd r); [rewrite E|]; exact E.
Qed.

Lemma trimEnd_idempotent s : trimEnd (trimEnd s) = trimEnd s.
Proof.
  induction s as [|c r IH]; simpl; [reflexivity|].
  destruct (trimEnd r) as [|d r'] eqn:E.
  - destruct (isWhiteSpace c) eqn:W; simpl; [reflexivity|rewrite W; reflexivity].
  - change (trimEnd (String c (String d r'))) with
      (match trimEnd (String d r') with
       | EmptyString => if isWhiteSpace c then EmptyString else String c EmptyString
       | r'' => String c r''
       end).
    rewrite IH. reflexivity.
Qed.

Lemma trim_idempotent s : trim (trim s) = trim s.
Proof.
  unfold trim.
  rewrite (trimStart_clean (trimEnd (trimStart s))).
  - apply trimEnd_idempotent.
  - apply trimEnd_startsClean, trimStart_startsClean.
Qed.

Lemma allChars_app p a b : allChars p (a ++ b) = allChars p a && allChars p b.
Proof.
  induction a as [|c a IH]; simpl; [reflexivity|].
  rewrite IH. apply andb_assoc.
Qed.

Lemma trimStart_free s : allChars notWhiteSpace s = true -> trimStart s = s.
Proof.
  destruct s as [|c r]; simpl; [reflexivity|]. unfold notWhiteSpace at 1.
  destruct (isWhiteSpace c); simpl; [discriminate|reflexivity].
Qed.

Lemma trimEnd_free s : allChars notWhiteSpace s = true -> trimEnd s = s.
Proof.
  induction s as [|c r IH]; simpl; [reflexivity|]. unfold notWhiteSpace at 1.
  destruct (isWhiteSpace c) eqn:W; simpl; [discriminate|].
  intros F. rewrite (IH F). destruct r; reflexivity.
Qed.

Lemma trim_free s : allChars notWhiteSpace s = true -> trim s = s.
Proof.
  intros F. unfold trim. rewrite (trimStart_free _ F). apply trimEnd_free, F.
Qed.

(** The tokens of a split hold no white space. *)
Lemma splitFrom_free s : forall inRun tok,
  allChars notWhiteSpace tok = true ->
  Forall (fun t => allChars notWhiteSpace t = true) (splitFrom inRun tok s).
Proof.
  induction s as [|c r IH]; intros inRun tok F; simpl.
  - constructor; [exact F|constructor].
  - destruct (isWhiteSpace c) eqn:W.
    + destruct inRun.
      * apply IH, F.
      * constructor; [exact F|]. apply IH. reflexivity.
    + apply IH. rewrite allChars_app, F. simpl.
      unfold notWhiteSpace. rewrite W. reflexivity.
Qed.

(** ** What the schema returns *)

Lemma normalizeArgs_settled items l :
  normalizeArgs items = Some l -> settledArgs l.
Proof.
  unfold normalizeArgs.
  destruct (filter truthyString (map trim items)) as [|x l'] eqn:E; [discriminate|].
  intros [= <-]. split; [discriminate|].
  rewrite <- E. apply Forall_forall. intros t I.
  apply filter_In in I as [I T]. apply in_map_iff in I as (y & <- & _).
  split; [apply truthyString_true, T|apply trim_idempotent].
Qed.

Section SchemaOutput.

Variable StringToNumber : string -> float.

Abbreviation parse := (Config.parse StringToNumber).
Abbreviation envLayer := (Config.envLayer StringToNumber).
Abbreviation overrideLayer := (Config.overrideLayer StringToNumber).
Abbreviation resolveConfig := (Config.resolveConfig StringToNumber).
Abbreviation positiveIntSchema := (Config.positiveIntSchema StringToNumber).

Lemma stringSchema_settled s r :
  field stringSchema s = Return r -> slotHolds settled r.
Proof.
  intros H. apply field_Return in H as (v & Hv & ->).
  destruct v as [t|]; [|destruct (hasKey s); exact I].
  simpl. unfold stringSchema in Hv.
  destruct (read s) as [[b|n|str|items]|]; try discriminate.
  destruct (1 <=? String.length (trim str))%nat eqn:E; [|discriminate].
  injection Hv as <-. split; [|apply trim_idempotent].
  destruct (trim str); [discriminate|discriminate].
Qed.

Lemma positiveIntSchema_positive s r :
  field positiveIntSchema s = Return r -> slotHolds (fun z => (0 < z)%Z) r.
Proof.
  intros H. apply field_Return in H as (v & Hv & ->).
  destruct v as [z|]; [|destruct (hasKey s); exact I].
  simpl. unfold Config.positiveIntSchema in Hv.
  destruct (read s) as [raw|]; [|discriminate].
  destruct (PrimFloat.is_nan (toNumber StringToNumber raw)); [discriminate|].
  destruct (toInteger (toNumber StringToNumber raw)) as [i|]; [|discriminate].
  destruct (0 <? i)%Z eqn:P; [|discriminate].
  injection Hv as <-. apply Z.ltb_lt, P.
Qed.

Lemma argsSchema_settled s r :
  field argsSchema s = Return r -> slotHolds settledArgs r.
Proof.
  intros H. apply field_Return in H as (v & Hv & ->).
  destruct v as [l|]; [|destruct (hasKey s); exact I].
  simpl. unfold argsSchema in Hv.
  destruct (read s) as [[b|n|str|items]|]; try discriminate.
  - destruct (truthyString str); [|discriminate].
    injection Hv as Hv. apply (normalizeArgs_settled _ _ Hv).
  - injection Hv as Hv. apply (normalizeArgs_settled _ _ Hv).
Qed.

Lemma parse_settled data o : parse data = Return o -> settledLayer o.
Proof.
  intros H. apply parse_Return in H.
  destruct H as (_ & H2 & H3 & H4 & H5 & H6 & H7 & H8 & _ & H10 & H11 & _).
  unfold settledLayer.
  repeat split;
    first [ eapply stringSchema_settled; eassumption
          | eapply positiveIntSchema_positive; eassumption
          | eapply argsSchema_settled; eassumption ].
Qed.

Lemma overrideLayer_settled overrides o :
  overrideLayer overrides = Return o -> settledLayer o.
Proof.
  destruct overrides as [data|]; simpl.
  - apply parse_settled.
  - intros [= <-]. unfold settledLayer. simpl. tauto.
Qed.

Lemma read_spread_holds {A} (P : A -> Prop) (lower upper : slot A) :
  slotHolds P lower -> slotHolds P upper -> optionHolds P (read (spread lower upper)).
Proof.
  unfold spread. destruct upper; simpl; auto. destruct lower; simpl; auto.
Qed.

(** X1.  Whatever [resolveConfig] returns is well formed: a string field
    that is present is not empty and, [projectPath] apart, has nothing
    left to trim; [timeout] and [port] are positive integers; [args] is a
    non-empty list of non-empty trimmed strings. *)
Theorem resolved_config_is_well_formed env overrides previous c :
  resolveConfig env overrides previous = Return c ->
  optionHolds settled (cliPath c)
  /\ optionHolds (fun s => s <> "") (projectPath c)
  /\ optionHolds settled (wsEndpoint c)
  /\ optionHolds (fun z => (0 < z)%Z) (timeout c)
  /\ optionHolds (fun z => (0 < z)%Z) (port c)
  /\ optionHolds settled (account c)
  /\ optionHolds settled (ticket c)
  /\ optionHolds settledArgs (args c)
  /\ optionHolds settled (cwd c).
Proof.
  intros H.
  destruct (resolveConfig_Return _ _ _ _ _ H) as (E & O & He & Ho & V).
  apply validate_Return in V.
  destruct (merged_nonEmpty _ _ _ previous _ _ He Ho) as [Np _].
  rewrite (mergeLayers_over_env _ _ _ _ _ He) in V, Np.
  destruct (parse_settled _ _ He) as (E1 & _ & E3 & E4 & E5 & E6 & E7 & E8 & E9).
  destruct (overrideLayer_settled _ _ Ho)
    as (O1 & _ & O3 & O4 & O5 & O6 & O7 & O8 & O9).
  subst c. simpl in *.
  repeat split; try (apply read_spread_holds; assumption).
  destruct (spread _ (Overrides.projectPath O)) as [| |path]; simpl; try exact I.
  apply truthyString_true, Np.
Qed.

(** X2.  Between the caller and the environment the caller wins: each
    field other than [mode] holds the caller's value when the caller's
    overrides carry its key, and the environment's otherwise; for
    [projectPath], which the environment never carries, the value kept
    from the previous configuration stands in when the caller gives
    none. *)
Theorem overrides_take_precedence env overrides previous envInput overrideConfig c :
  envLayer env = Return envInput ->
  overrideLayer overrides = Return overrideConfig ->
  resolveConfig env overrides previous = Return c ->
  cliPath c = read (spread (Overrides.cliPath envInput) (Overrides.cliPath overrideConfig))
  /\ projectPath c =
       read (spread (Overrides.projectPath (fromPrevious previous))
                    (Overrides.projectPath overrideConfig))
  /\ wsEndpoint c =
       read (spread (Overrides.wsEndpoint envInput) (Overrides.wsEndpoint overrideConfig))
  /\ timeout c = read (spread (Overrides.timeout envInput) (Overrides.timeout overrideConfig))
  /\ port c = read (spread (Overrides.port envInput) (Overrides.port overrideConfig))
  /\ account c = read (spread (Overrides.account envInput) (Overrides.account overrideConfig))
  /\ ticket c = read (spread (Overrides.ticket envInput) (Overrides.ticket overrideConfig))
  /\ trustProject c =
       read (spread (Overrides.trustProject envInput)
                    (Overrides.trustProject overrideConfig))
  /\ args c = read (spread (Overrides.args envInput) (Overrides.args overrideConfig))
  /\ cwd c = read (spread (Overrides.cwd envInput) (Overrides.cwd overrideConfig))
  /\ autoClose c =
       read (spread (Overrides.autoClose envInput) (Overrides.autoClose overrideConfig)).
Proof.
  intros He Ho H.
  rewrite (resolveConfig_layers _ _ _ _ _ _ He Ho) in H.
  apply validate_Return in H.
  rewrite (mergeLayers_over_env _ _ _ _ _ He) in H.
  subst c. simpl. repeat split; reflexivity.
Qed.

(** X3.  Of the previous configuration, [resolveConfig] reads the mode
    and the project path and nothing else: two previous configurations
    that agree on these two fields give the same outcome, whatever their
    other fields hold. *)
Theorem previous_is_read_for_mode_and_projectPath env overrides p q :
  mode p = mode q ->
  projectPath p = projectPath q ->
  resolveConfig env overrides (Some p) = resolveConfig env overrides (Some q).
Proof.
  intros Hm Hp. unfold Config.resolveConfig.
  destruct (envLayer env) as [E|e] eqn:He; simpl; [|reflexivity].
  destruct (overrideLayer overrides) as [O|e]; simpl; [|reflexivity].
  rewrite !(mergeLayers_over_env _ _ _ _ _ He).
  unfold configOf, inferMode. simpl. rewrite Hm, Hp. reflexivity.
Qed.

(** X4.  A resolved configuration is stable: resolving again with the
    same environment and overrides against it succeeds, and
    [isSameConfig] accepts the result as the same configuration. *)
Theorem resolved_config_is_stable env overrides previous c :
  resolveConfig env overrides previous = Return c ->
  exists c',
    resolveConfig env overrides (Some c) = Return c'
    /\ isSameConfig c c' = true.
Proof.
  intros H. exists c. split.
  - apply (resolveConfig_again _ _ _ _ _ H).
  - apply isSameConfig_refl.
Qed.

(** *** Validating twice *)

Lemma field_echo {A} (raw : A -> Raw -> Prop)
    (schema : option Raw -> completion (option A)) (P : A -> Prop) typed given :
  schema None = Return None ->
  (forall a r, P a -> raw a r -> schema (Some r) = Return (Some a)) ->
  slotHolds P typed -> echo raw typed given ->
  field schema given = Return typed.
Proof.
  intros N V H E. unfold field.
  destruct typed as [| |a], given as [| |r]; simpl in *; try contradiction.
  - rewrite N. reflexivity.
  - rewrite N. reflexivity.
  - rewrite (V a r H E). reflexivity.
Qed.

Lemma slotHolds_True {A} (s : slot A) : slotHolds (fun _ => True) s.
Proof. destruct s; exact I. Qed.

Lemma modeSchema_echo m r :
  True -> rawMode m r -> modeSchema (Some r) = Return (Some m).
Proof. intros _ ->. destruct m; reflexivity. Qed.

Lemma stringSchema_echo t r :
  settled t -> rawString t r -> stringSchema (Some r) = Return (Some t).
Proof.
  intros [N T] ->. simpl. rewrite T. destruct t; [contradiction|reflexivity].
Qed.

Lemma positiveIntSchema_echo z r :
  (0 < z)%Z -> rawNumber z r -> positiveIntSchema (Some r) = Return (Some z).
Proof.
  intros P (n & -> & Nan & I). unfold Config.positiveIntSchema, toNumber.
  rewrite Nan, I. apply Z.ltb_lt in P. rewrite P. reflexivity.
Qed.

Lemma booleanSchema_echo b r :
  True -> rawBoolean b r -> booleanSchema (Some r) = Return (Some b).
Proof. intros _ ->. reflexivity. Qed.

Lemma argsSchema_echo l r :
  settledArgs l -> rawArgs l r -> argsSchema (Some r) = Return (Some l).
Proof.
  intros [N F] ->. simpl. unfold normalizeArgs.
  assert (M : map trim l = l).
  { clear N. induction F as [|x l' [_ T] _ IH]; simpl; [reflexivity|].
    rewrite T, IH. reflexivity. }
  assert (K : filter truthyString l = l).
  { clear N M. induction F as [|x l' [X _] _ IH]; simpl; [reflexivity|].
    apply truthyString_true in X. rewrite X, IH. reflexivity. }
  rewrite M, K. destruct l; [contradiction|reflexivity].
Qed.

(** X5.  The schema leaves its own output as it is.  The object it
    returned, handed to it again (each key as it came back: missing,
    holding [undefined], or holding the value returned, a number as a
    number, a list of arguments as an array), is accepted and returned
    unchanged: the overrides a tool has validated pass the validation of
    [resolveConfig] without a change. *)
Theorem schema_output_is_a_fixed_point data o again :
  parse data = Return o ->
  echoes o again ->
  parse again = Return o.
Proof.
  intros H E.
  destruct (parse_settled _ _ H) as (S2 & S3 & S4 & S5 & S6 & S7 & S8 & S10 & S11).
  destruct E as (E1 & E2 & E3 & E4 & E5 & E6 & E7 & E8 & E9 & E10 & E11 & E12).
  unfold Config.parse.
  rewrite (field_echo rawMode modeSchema _ _ _ eq_refl modeSchema_echo
             (slotHolds_True _) E1).
  rewrite (field_echo rawString stringSchema _ _ _ eq_refl stringSchema_echo S2 E2).
  rewrite (field_echo rawString stringSchema _ _ _ eq_refl stringSchema_echo S3 E3).
  rewrite (field_echo rawString stringSchema _ _ _ eq_refl stringSchema_echo S4 E4).
  rewrite (field_echo rawNumber positiveIntSchema _ _ _ eq_refl
             positiveIntSchema_echo S5 E5).
  rewrite (field_echo rawNumber positiveIntSchema _ _ _ eq_refl
             positiveIntSchema_echo S6 E6).
  rewrite (field_echo rawString stringSchema _ _ _ eq_refl stringSchema_echo S7 E7).
  rewrite (field_echo rawString stringSchema _ _ _ eq_refl stringSchema_echo S8 E8).
  rewrite (field_echo rawBoolean booleanSchema _ _ _ eq_refl booleanSchema_echo
             (slotHolds_True _) E9).
  rewrite (field_echo rawArgs argsSchema _ _ _ eq_refl argsSchema_echo S10 E10).
  rewrite (field_echo rawString stringSchema _ _ _ eq_refl stringSchema_echo S11 E11).
  rewrite (field_echo rawBoolean booleanSchema _ _ _ eq_refl booleanSchema_echo
             (slotHolds_True _) E12).
  simpl. destruct o; reflexivity.
Qed.

(** X6.  Arguments given as one string are split at white space: each
    argument kept is non-empty and holds no white space at all. *)
Theorem args_from_a_string_hold_no_white_space s l :
  argsSchema (Some (RStr s)) = Return (Some l) ->
  l <> [] /\ Forall (fun a => a <> "" /\ allChars notWhiteSpace a = true) l.
Proof.
  simpl. destruct (truthyString s); [|discriminate].
  unfold normalizeArgs.
  assert (M : map trim (splitWhiteSpace s) = splitWhiteSpace s).
  { pose proof (splitFrom_free s false EmptyString eq_refl) as F.
    unfold splitWhiteSpace.
    induction F as [|x l' X _ IH]; simpl; [reflexivity|].
    rewrite (trim_free _ X), IH. reflexivity. }
  rewrite M.
  destruct (filter truthyString (splitWhiteSpace s)) as [|x l'] eqn:E; [discriminate|].
  intros [= <-]. split; [discriminate|].
  rewrite <- E. apply Forall_forall. intros a I.
  apply filter_In in I as [I T]. split; [apply truthyString_true, T|].
  pose proof (splitFrom_free s false EmptyString eq_refl) as F.
  rewrite Forall_forall in F. apply F, I.
Qed.

End SchemaOutput.

(* ================================================================== *)
(** * Further properties of the session manager *)
(* ================================================================== *)

Section SchemaFailures.

Variable StringToNumber : string -> float.

Abbreviation parse := (Config.parse StringToNumber).
Abbreviation resolveConfig := (Config.resolveConfig StringToNumber).

Lemma field_throws {A} (schema : option Raw -> completion (option A)) s e :
  (forall v e', schema v = Throw e' -> e' = ZodError) ->
  field schema s = Throw e -> e = ZodError.
Proof.
  intros H. unfold field. destruct (schema (read s)) eqn:E; simpl; [discriminate|].
  intros [= <-]. exact (H _ _ E).
Qed.

Lemma modeSchema_throws v e : modeSchema v = Throw e -> e = ZodError.
Proof.
  unfold modeSchema. destruct v as [[b|n|s|items]|]; try congruence.
  destruct (s =? "launch")%string; [discriminate|].
  destruct (s =? "connect")%string; congruence.
Qed.

Lemma stringSchema_throws v e : stringSchema v = Throw e -> e = ZodError.
Proof.
  unfold stringSchema. destruct v as [[b|n|s|items]|]; try congruence.
  destruct (1 <=? String.length (trim s))%nat; congruence.
Qed.

Lemma positiveIntSchema_throws v e :
  positiveIntSchema StringToNumber v = Throw e -> e = ZodError.
Proof.
  unfold positiveIntSchema. destruct v as [r|]; [|discriminate].
  destruct (PrimFloat.is_nan (toNumber StringToNumber r)); [congruence|].
  destruct (toInteger (toNumber StringToNumber r)) as [z|]; [|congruence].
  destruct (0 <? z)%Z; congruence.
Qed.

Lemma booleanSchema_throws v e : booleanSchema v = Throw e -> e = ZodError.
Proof. unfold booleanSchema. destruct v; discriminate. Qed.

Lemma argsSchema_throws v e : argsSchema v = Throw e -> e = ZodError.
Proof.
  unfold argsSchema. destruct v as [[b|n|s|items]|]; try congruence.
  destruct (truthyString s); discriminate.
Qed.

(** The schema fails with its own error, and no other. *)
Lemma parse_throws data e : parse data = Throw e -> e = ZodError.
Proof.
  unfold Config.parse.
  repeat match goal with
         | |- JS.bind (field ?schema ?x) _ = Throw _ -> _ =>
             let E := fresh "E" in
             destruct (field schema x) eqn:E; simpl;
             [|intros [= <-]; revert E; apply field_throws;
               first [ exact modeSchema_throws | exact stringSchema_throws
                     | exact positiveIntSchema_throws | exact booleanSchema_throws
                     | exact argsSchema_throws ]]
         end.
  discriminate.
Qed.

(** What [resolveConfig] throws: the schema's error, or one of its two
    [ConfigError]s. *)
Lemma resolveConfig_throws env overrides previous e :
  resolveConfig env overrides previous = Throw e ->
  e = ZodError \/ e = ConfigError wsEndpointRequired
  \/ e = ConfigError projectPathRequired.
Proof.
  unfold Config.resolveConfig, Config.envLayer.
  destruct (parse (envObject env)) as [E|e1] eqn:He; simpl.
  2:{ intros [= <-]. left. exact (parse_throws _ _ He). }
  destruct (Config.overrideLayer StringToNumber overrides) as [O|e2] eqn:Ho; simpl.
  2:{ intros [= <-]. left. destruct overrides as [data|]; simpl in Ho.
      - exact (parse_throws _ _ Ho).
      - discriminate. }
  unfold validate.
  destruct (mode _);
    match goal with
    | |- (if ?b then _ else _) = _ -> _ => destruct b
    end; intros [= <-]; auto.
Qed.

End SchemaFailures.

Section ManagerFurther.

Variable StringToNumber : string -> float.
Variable NumberToString : float -> string.
Variable automator : Automator.

Abbreviation resolveConfig := (Config.resolveConfig StringToNumber).
Abbreviation close := (Client.close automator).
Abbreviation connect := (Client.connect automator).
Abbreviation establish := (Client.establish automator).
Abbreviation withMiniProgram := (Client.withMiniProgram StringToNumber automator).
Abbreviation closedFrom := (closedFrom automator).
Abbreviation afterReconnect := (afterReconnect automator).
Abbreviation beforeConnect := (beforeConnect automator).
Abbreviation offered := (offered automator).
Abbreviation runHandler := (runHandler automator).
Abbreviation reachable := (reachable StringToNumber NumberToString automator).
Abbreviation entryOf := (Client.entryOf NumberToString).
Abbreviation observe := (Client.observe NumberToString).
Abbreviation emit := (Client.emit NumberToString).
Abbreviation withPage := (Pages.withPage StringToNumber automator).

(** ** How a call ends once its configuration is resolved *)

Lemma withMiniProgram_handled {T} env options
    (handler : option Handle -> WeappConnectionConfig -> completion T) s config :
  resolveConfig env (overrides options) (Client.config (this s)) = Return config ->
  let out := withMiniProgram env options handler s in
  match offered config options s with
  | inr error =>
      fst out = Throw (UserError (failedTo config (messageOf error)))
      /\ noSession (snd out)
  | inl given =>
      exists h,
        given = Some h
        /\ fst out = handler (Some h) config
        /\ match autoClose config with
           | Some true => noSession (snd out)
           | Some false | None =>
               miniProgram (this (snd out)) = Some h
               /\ Client.config (this (snd out)) = Some config
           end
  end.
Proof.
  intros R. cbv zeta.
  rewrite (withMiniProgram_resolved _ _ _ _ _ _ _ R). cbv zeta.
  assert (K : forall s1 h1,
             miniProgram (this s1) = Some h1 ->
             Client.config (this s1) = Some config ->
             fst (runHandler handler config s1) = handler (Some h1) config
             /\ match autoClose config with
                | Some true => noSession (snd (runHandler handler config s1))
                | Some false | None =>
                    miniProgram (this (snd (runHandler handler config s1))) = Some h1
                    /\ Client.config (this (snd (runHandler handler config s1)))
                       = Some config
                end).
  { intros s1 h1 M1 C1. destruct (autoClose config) as [[]|] eqn:A.
    - rewrite (runHandler_autoClose _ _ _ _ A). simpl. rewrite M1.
      split; [reflexivity|].
      rewrite (close_session _ _ _ _ M1). apply closedFrom_noSession.
    - rewrite runHandler_keep by congruence. simpl. rewrite M1. auto.
    - rewrite runHandler_keep by congruence. simpl. rewrite M1. auto. }
  unfold offered.
  destruct (canReuse config (afterReconnect options s)) eqn:CR.
  - destruct (canReuse_true _ _ CR) as (h & M1 & C1).
    exists h. split; [exact M1|]. exact (K _ _ M1 C1).
  - rewrite establish_unfold.
    destruct (connect config (beforeConnect config (afterReconnect options s)))
      as [[h|error] s2]; simpl.
    + exists h. split; [reflexivity|].
      exact (K (attachLogging h (setSession (Some h) (Some config) s2)) h
               eq_refl eq_refl).
    + split; [reflexivity|split; reflexivity].
Qed.

(** X7.  Every way a call of [withMiniProgram] can end, by what
    [resolveConfig] gives on the overrides and the stored configuration
    and by what the connection step has to offer.  When [resolveConfig]
    throws, which it does with the schema's error or one of its two
    [ConfigError]s only, the call throws the schema's error or a
    [UserError] with the message of the [ConfigError], and the state is
    as it was.  When the connection step fails, the call throws the
    [UserError] "Failed to ..." and the manager holds no session.
    Otherwise the connection step offers a handle, never [undefined]; the
    result of the call is the handler's on that handle and the resolved
    configuration, and the manager then holds that handle and that
    configuration, or no session when the configuration asks for
    auto-close. *)
Theorem withMiniProgram_outcomes {T} env options
    (handler : option Handle -> WeappConnectionConfig -> completion T) s :
  let out := withMiniProgram env options handler s in
  match resolveConfig env (overrides options) (Client.config (this s)) with
  | Throw e =>
      snd out = s
      /\ fst out = Throw match e with
                         | ConfigError message => UserError message
                         | _ => e
                         end
      /\ (e = ZodError \/ e = ConfigError wsEndpointRequired
          \/ e = ConfigError projectPathRequired)
  | Return config =>
      match offered config options s with
      | inr error =>
          fst out = Throw (UserError (failedTo config (messageOf error)))
          /\ noSession (snd out)
      | inl given =>
          exists h,
            given = Some h
            /\ fst out = handler (Some h) config
            /\ match autoClose config with
               | Some true => noSession (snd out)
               | Some false | None =>
                   miniProgram (this (snd out)) = Some h
                   /\ Client.config (this (snd out)) = Some config
               end
      end
  end.
Proof.
  cbv zeta.
  destruct (resolveConfig env (overrides options) (Client.config (this s)))
    as [config|e] eqn:R.
  - exact (withMiniProgram_handled _ _ handler _ _ R).
  - rewrite (withMiniProgram_unresolved _ _ _ _ _ _ _ R). simpl.
    split; [reflexivity|]. split; [reflexivity|].
    exact (resolveConfig_throws _ _ _ _ _ R).
Qed.

(** X8.  A forced reconnect always starts over: with a session held,
    [reconnect: true] tears it down and calls the automator again, even
    when the configuration resolved is the stored one. *)
Theorem forced_reconnect_starts_over {T} env given
    (handler : option Handle -> WeappConnectionConfig -> completion T)
    s stored config h :
  miniProgram (this s) = Some h ->
  Client.config (this s) = Some stored ->
  resolveConfig env given (Some stored) = Return config ->
  exists logged rest,
    calls (snd (withMiniProgram env {| overrides := given; reconnect := true |}
                                handler s)) =
      calls s ++ [teardownOf (Some stored) h; logged; RemoveAllListeners h;
                  establishingLog config; establishmentOf config] ++ rest.
Proof.
  intros H C R. rewrite <- C in R.
  rewrite (withMiniProgram_resolved _ _ _
             {| overrides := given; reconnect := true |} _ _ _ R). cbv zeta.
  destruct (closedFrom_calls automator h s) as [logged L]. rewrite C in L.
  exists logged.
  assert (B : canReuse config
                 (afterReconnect {| overrides := given; reconnect := true |} s)
               = false
             /\ beforeConnect config
                  (afterReconnect {| overrides := given; reconnect := true |} s) =
                  logWith Info "Establishing WeChat DevTools automation session"
                    (SessionData (mode config) (projectPath config)
                       (wsEndpoint config) (port config)) (closedFrom true h s)).
  { unfold afterReconnect, beforeConnect. simpl reconnect. cbv iota.
    rewrite (close_session _ _ _ _ H). simpl snd.
    split; reflexivity. }
  destruct B as (CR & BC).
  rewrite CR, establish_unfold, BC.
  pose proof (connect_calls automator config
                (logWith Info "Establishing WeChat DevTools automation session"
                   (SessionData (mode config) (projectPath config)
                      (wsEndpoint config) (port config)) (closedFrom true h s))) as CC.
  cbn [calls logWith record] in CC. rewrite L in CC.
  destruct (connect config _) as [[h'|error] s2]; simpl in CC.
  - destruct (runHandler_extends automator handler config
                (attachLogging h' (setSession (Some h') (Some config) s2)))
      as [rest E].
    exists ([On h' "console"; On h' "exception"] ++ rest).
    rewrite E. simpl. rewrite CC. unfold establishingLog.
    rewrite <- !app_assoc. reflexivity.
  - exists []. simpl. rewrite CC. unfold establishingLog.
    rewrite <- !app_assoc. reflexivity.
Qed.

(** X9.  In every state the manager can reach, its listeners sit on the
    handle of the session it holds and on no other.  So an event raised
    by the mini program of the session runs its listener exactly once,
    and an event raised on any other handle, a session closed earlier
    for one, changes nothing.  The listener appends the entry of the
    event to the buffer, dropping the oldest entry beyond 1000; when it
    throws while it prints the event, it appends nothing and the manager
    is as it was. *)
Theorem events_reach_the_log_through_the_session_only s :
  reachable s ->
  tracked s
  /\ (forall h e,
        emit h e s =
          match miniProgram (this s) with
          | Some active => if (active =? h)%nat then observe e s else s
          | None => s
          end)
  /\ (forall e,
        match entryOf e with
        | Some logEntry =>
            getConsoleLogs (observe e s) = pushLog logEntry (getConsoleLogs s)
        | None => observe e s = s
        end).
Proof.
  intros R. pose proof (reachable_tracked _ _ _ s R) as K.
  split; [exact K|]. split.
  - intros h e. apply emit_tracked, K.
  - intros e. pose proof (observe_consoleLogs NumberToString e s) as O.
    unfold getConsoleLogs.
    destruct (entryOf e) as [logEntry|] eqn:E; [exact O|].
    revert E. unfold Client.observe, Client.entryOf, onConsole, onException.
    destruct (kind e); intros ->; reflexivity.
Qed.

(** ** withPage *)

Section WithPage.

Variable currentPage : option Handle -> completion (option Pages.Page).

(** X11.  Every way a call of [withPage] can end.  It fails as
    [withMiniProgram] does, when [resolveConfig] throws or the connection
    step fails.  Otherwise the connection step offers the handle of the
    session, and the current page is asked of that handle: what the
    lookup throws is thrown, a missing page is the [UserError]
    "Mini Program page stack is empty...", and only on a page that
    exists is the handler called, with that page, that handle and the
    resolved configuration, its result being the call's. *)
Theorem withPage_outcomes {T} env options
    (handler : Pages.Page -> option Handle -> WeappConnectionConfig -> completion T)
    s :
  let out := withPage currentPage env options handler s in
  match resolveConfig env (overrides options) (Client.config (this s)) with
  | Throw e =>
      snd out = s
      /\ fst out = Throw match e with
                         | ConfigError message => UserError message
                         | _ => e
                         end
      /\ (e = ZodError \/ e = ConfigError wsEndpointRequired
          \/ e = ConfigError projectPathRequired)
  | Return config =>
      match offered config options s with
      | inr error =>
          fst out = Throw (UserError (failedTo config (messageOf error)))
          /\ noSession (snd out)
      | inl given =>
          exists h,
            given = Some h
            /\ fst out =
                 match currentPage (Some h) with
                 | Throw e => Throw e
                 | Return None => Throw (UserError Pages.pageStackEmpty)
                 | Return (Some page) => handler page (Some h) config
                 end
            /\ match autoClose config with
               | Some true => noSession (snd out)
               | Some false | None =>
                   miniProgram (this (snd out)) = Some h
                   /\ Client.config (this (snd out)) = Some config
               end
      end
  end.
Proof.
  cbv zeta. unfold Pages.withPage.
  destruct (resolveConfig env (overrides options) (Client.config (this s)))
    as [config|e] eqn:R.
  - pose proof (withMiniProgram_handled _ _
                  (fun miniProgram config =>
                     page <- currentPage miniProgram ;;
                     match page with
                     | None => Throw (UserError Pages.pageStackEmpty)
                     | Some page => handler page miniProgram config
                     end) _ _ R) as H.
    cbv zeta in H.
    destruct (offered config options s) as [given|error]; [|exact H].
    destruct H as (h & G & F & S). exists h.
    split; [exact G|]. split; [|exact S].
    rewrite F. destruct (currentPage (Some h)) as [[page|]|e]; reflexivity.
  - rewrite (withMiniProgram_unresolved _ _ _ _ _ _ _ R). simpl.
    split; [reflexivity|]. split; [reflexivity|].
    exact (resolveConfig_throws _ _ _ _ _ R).
Qed.

End WithPage.

End ManagerFurther.

(** X12.  [isSameConfig] is equality of configurations: it compares
    every field, [args] element by element and in order, and holds of
    nothing else. *)
Theorem isSameConfig_is_equality a b :
  (isSameConfig a b = true <-> a = b)
  /\ isSameConfig a b = isSameConfig b a.
Proof.
  split; [apply isSameConfig_eq|].
  destruct (isSameConfig a b) eqn:E.
  - apply isSameConfig_eq in E. subst b. symmetry. apply isSameConfig_refl.
  - destruct (isSameConfig b a) eqn:E'; [|reflexivity].
    apply isSameConfig_eq in E'. subst b. rewrite isSameConfig_refl in E.
    discriminate.
Qed.

(* ================================================================== *)
(** * Properties of the tools *)
(* ================================================================== *)

(** ** Reading the captured logs *)

Section GetLogsProperties.

Variable StringToNumber : string -> float.
Variable NumberToString : float -> string.
Variable automator : Automator.

Abbreviation getLogs := (Application.getLogs StringToNumber).
Abbreviation reachable := (reachable StringToNumber NumberToString automator).
Abbreviation observeAll := (Client.observeAll NumberToString).
Abbreviation captured := (captured NumberToString).

(** X13.  A read of the logs and the next one.  [mp_getLogs] reports
    the buffer as it stood, whether or not it then clears it; it needs
    no session and leaves the one there is alone.  The next read
    reports the entries captured in between, after those the first read
    left in place when it did not clear, the newest 1000 of them: from
    one read to the next, an entry is reported twice only if the first
    read kept it, and none is lost but to the capacity. *)
Theorem getLogs_reads_then_clears
    connection clear s report s' events connection' clear' report' s'' :
  reachable s ->
  getLogs connection clear s = (Return report, s') ->
  getLogs connection' clear' (observeAll events s') = (Return report', s'') ->
  Application.logs report = getConsoleLogs s
  /\ Application.count report = length (getConsoleLogs s)
  /\ miniProgram (this s') = miniProgram (this s)
  /\ config (this s') = config (this s)
  /\ calls s' = calls s
  /\ Application.logs report' =
       keepLast maxLogs
         ((if match clear with
              | Some raw => toBoolean raw
              | None => false
              end
           then [] else getConsoleLogs s) ++ captured events)
  /\ Application.count report' = length (Application.logs report').
Proof.
  intros R. unfold Application.getLogs, Application.getConsoleLogsParameters.
  destruct (match connection with
            | Some data => Config.parse StringToNumber data
            | None => Return Overrides.empty
            end) as [parsed|e]; [|discriminate].
  destruct (match connection' with
            | Some data => Config.parse StringToNumber data
            | None => Return Overrides.empty
            end) as [parsed'|e]; [|discriminate].
  simpl. set (flag := match clear with
                      | Some raw => toBoolean raw
                      | None => false
                      end).
  intros [= <- <-] [= <- _]. simpl.
  pose proof (reachable_bounded _ _ _ s R) as B.
  repeat split; try (destruct flag; reflexivity).
  unfold getConsoleLogs at 1.
  destruct flag.
  - apply (observeAll_keepLast NumberToString). simpl. lia.
  - apply (observeAll_keepLast NumberToString). exact B.
Qed.

End GetLogsProperties.

(** ** Serialisation of tool results *)

(** X15.  The serialiser of the log capture and the serialiser of tool
    results give the same on every value that holds no [Date], no
    [Buffer] and no page-like object. *)
Theorem serialisers_agree_on_plain_values : forall v,
  plain v = true -> toSerializable v = Common.toSerializableValue v.
Proof.
  fix IH 1.
  intros [ | |b|n|s|z|d|f|iso|bytes|items|entries]; try reflexivity;
    try discriminate.
  - simpl. intros P. f_equal.
    induction items as [|x items IHl]; [reflexivity|].
    simpl in P. apply andb_prop in P as [Px Pl]. simpl.
    rewrite (IH x Px), (IHl Pl). reflexivity.
  - intros P. simpl in P. apply andb_prop in P as [N P].
    assert (L : match lookup "path" entries with
                | Some (JStr _) => false
                | _ => true
                end = true).
    { revert N. unfold Common.isPageLike.
      destruct (lookup "path" entries) as [[]|]; simpl; auto. }
    simpl.
    assert (E : map (fun entry => (fst entry, toSerializable (snd entry))) entries
                = map (fun entry => (fst entry, Common.toSerializableValue (snd entry)))
                      entries).
    { clear N L. induction entries as [|[k x] entries IHl]; [reflexivity|].
      simpl in P. apply andb_prop in P as [Px Pl]. simpl.
      rewrite (IH x Px), (IHl Pl). reflexivity. }
    rewrite E.
    destruct (lookup "path" entries) as [[]|]; try reflexivity. discriminate.
Qed.

(** ** URLs *)

Lemma allChars_weaken (p q : ascii -> bool) s :
  (forall c, p c = true -> q c = true) ->
  allChars p s = true -> allChars q s = true.
Proof.
  intros H. induction s as [|c r IH]; simpl; [reflexivity|].
  intros A. apply andb_prop in A as [Pc Pr].
  rewrite (H _ Pc), (IH Pr). reflexivity.
Qed.

Lemma countChar_app c a b : countChar c (a ++ b) = countChar c a + countChar c b.
Proof.
  induction a as [|d a IH]; simpl; [reflexivity|]. rewrite IH. lia.
Qed.

Lemma countChar_absent p c s :
  allChars p s = true -> p c = false -> countChar c s = 0.
Proof.
  intros A N. induction s as [|d r IH]; simpl; [reflexivity|].
  simpl in A. apply andb_prop in A as [Pd Pr]. rewrite (IH Pr).
  destruct (Ascii.eqb d c) eqn:E; [|reflexivity].
  apply Ascii.eqb_eq in E. subst d. congruence.
Qed.

Lemma includes_countChar c s : Tools.includes c s = negb (countChar c s =? 0)%nat.
Proof.
  induction s as [|d r IH]; simpl; [reflexivity|].
  rewrite IH. destruct (Ascii.eqb d c); reflexivity.
Qed.

(** The serialisation of one code unit. *)
Lemma formEncode_unit c :
  allChars isFormChar
    (String.concat "" (map Tools.formByte (Tools.utf8 c))) = true.
Proof.
  destruct c as [[] [] [] [] [] [] [] []]; vm_compute; reflexivity.
Qed.

Lemma formEncode_chars s : allChars isFormChar (Tools.formEncode s) = true.
Proof.
  induction s as [|c r IH]; simpl; [reflexivity|].
  rewrite allChars_app, formEncode_unit, IH. reflexivity.
Qed.

Lemma formPair_chars entry :
  allChars isQueryChar
    (Tools.formEncode (fst entry) ++ "=" ++ Tools.formEncode (snd entry)) = true.
Proof.
  assert (W : forall s, allChars isQueryChar (Tools.formEncode s) = true).
  { intros s. apply (allChars_weaken isFormChar); [|apply formEncode_chars].
    intros c H. unfold isQueryChar. rewrite H. reflexivity. }
  rewrite !allChars_app, !W. reflexivity.
Qed.

Lemma formPair_count c entry :
  isFormChar c = false ->
  countChar c (Tools.formEncode (fst entry) ++ "=" ++ Tools.formEncode (snd entry))
  = countChar c "=".
Proof.
  intros N. rewrite !countChar_app.
  rewrite (countChar_absent _ _ _ (formEncode_chars (fst entry)) N).
  rewrite (countChar_absent _ _ _ (formEncode_chars (snd entry)) N). lia.
Qed.

Lemma concat_cons sep x y l :
  String.concat sep (x :: y :: l) = (x ++ sep ++ String.concat sep (y :: l))%string.
Proof. reflexivity. Qed.

Lemma searchParams_chars query :
  allChars isQueryChar (Tools.searchParams query) = true.
Proof.
  unfold Tools.searchParams, join.
  induction query as [|entry rest IH]; [reflexivity|].
  destruct rest as [|next rest]; [apply formPair_chars|].
  cbn [map] in *.
  rewrite concat_cons, allChars_app, (formPair_chars entry), allChars_app, IH.
  reflexivity.
Qed.

Lemma searchParams_count c query :
  isFormChar c = false ->
  countChar c (Tools.searchParams query) =
    length query * countChar c "=" + (length query - 1) * countChar c "&".
Proof.
  intros N. unfold Tools.searchParams, join.
  induction query as [|entry rest IH]; [reflexivity|].
  destruct rest as [|next rest].
  - cbn [map String.concat length Nat.sub]. rewrite (formPair_count _ _ N). lia.
  - cbn [map] in *.
    rewrite concat_cons, countChar_app, (formPair_count _ entry N), countChar_app, IH.
    cbn [length Nat.sub]. rewrite ?Nat.sub_0_r.
    generalize (countChar c "=") (countChar c "&") (length rest). intros x y n.
    nia.
Qed.

Lemma searchParams_truthy query :
  query <> [] -> truthyString (Tools.searchParams query) = true.
Proof.
  intros N. apply truthyString_true. intros E.
  pose proof (searchParams_count "=" query eq_refl) as C.
  rewrite E in C. simpl in C. destruct query; [contradiction|]. simpl in C. lia.
Qed.

(** X16.  A query with at least one entry always extends the path:
    [buildUrl] appends [?], or [&] when the path holds a [?] already,
    and the serialised query.  That query is made of safe bytes, [+],
    [%], one [=] per entry and one [&] between two entries, whatever the
    names and values hold; so the URL has exactly one [?] unless the
    path brought more. *)
Theorem buildUrl_appends_an_encoded_query path query :
  query <> [] ->
  let search := Tools.searchParams query in
  Tools.buildUrl path (Some query) =
    (path ++ (if Tools.includes "?" path then "&" else "?") ++ search)%string
  /\ allChars isQueryChar search = true
  /\ countChar "=" search = length query
  /\ countChar "&" search = length query - 1
  /\ countChar "?" (Tools.buildUrl path (Some query)) = Nat.max 1 (countChar "?" path).
Proof.
  intros N. cbv zeta.
  assert (B : Tools.buildUrl path (Some query) =
              (path ++ (if Tools.includes "?" path then "&" else "?")
                    ++ Tools.searchParams query)%string).
  { unfold Tools.buildUrl. destruct query as [|entry rest]; [contradiction|].
    cbv zeta. rewrite (searchParams_truthy (entry :: rest) N). reflexivity. }
  split; [exact B|]. split; [apply searchParams_chars|].
  split; [rewrite (searchParams_count "=" query eq_refl); simpl; lia|].
  split; [rewrite (searchParams_count "&" query eq_refl); simpl; lia|].
  rewrite B, !countChar_app, (searchParams_count "?" query eq_refl).
  rewrite includes_countChar.
  destruct (countChar "?" path) as [|n]; simpl; lia.
Qed.

(** ** Element lookup *)

(** X17.  [resolveElement] treats an empty inner selector as no inner
    selector.  When it fails, either one of the two queries threw and
    that exception is passed on, or it is a [UserError] with one of four
    messages: no usable page, nothing found for the selector, an element
    that cannot be queried, nothing found for the inner selector. *)
Theorem resolveElement_failures page selector innerSelector e :
  Tools.resolveElement page selector (Some "") = Tools.resolveElement page selector None
  /\ (Tools.resolveElement page selector innerSelector = Throw e ->
      (exists query, page = Some (Some query) /\ query selector = Throw e)
      \/ (exists query outer nested inner,
            page = Some (Some query) /\ query selector = Return (Some outer)
            /\ Tools.queryOf outer = Some nested /\ innerSelector = Some inner
            /\ nested inner = Throw e)
      \/ e = UserError Tools.pageNotAvailable
      \/ e = UserError (Tools.elementNotFound selector)
      \/ e = UserError (Tools.noNestedQueries selector)
      \/ exists inner, innerSelector = Some inner
                       /\ e = UserError (Tools.innerNotFound inner selector)).
Proof.
  split.
  - unfold Tools.resolveElement. destruct page as [[query|]|]; try reflexivity.
  - unfold Tools.resolveElement.
    destruct page as [[query|]|]; try (intros [= <-]; auto 6).
    destruct (query selector) as [[outer|]|e0] eqn:Q; simpl.
    + destruct innerSelector as [inner|]; [|discriminate].
      destruct (truthyString inner); [|discriminate].
      destruct (Tools.queryOf outer) as [nested|] eqn:O.
      * destruct (nested inner) as [[innermost|]|e1] eqn:I; simpl.
        -- discriminate.
        -- intros [= <-]. do 5 right. exists inner. auto.
        -- intros [= <-]. right. left. exists query, outer, nested, inner. auto.
      * intros [= <-]. auto 6.
    + intros [= <-]. auto 6.
    + intros [= <-]. left. exists query. auto.
Qed.

(* ================================================================== *)
(** * The further properties at concrete inputs *)
(* ================================================================== *)

Example untidy_overrides_tidied :
  Config.resolveConfig noNumber noEnv (Some untidy) None = Return tidied.
Proof. reflexivity. Qed.

Lemma resolved_config_is_well_formed_witness :
  Config.resolveConfig noNumber noEnv (Some untidy) None = Return tidied
  /\ optionHolds settled (cliPath tidied)
  /\ optionHolds (fun s => s <> "") (projectPath tidied)
  /\ optionHolds settled (wsEndpoint tidied)
  /\ optionHolds (fun z => (0 < z)%Z) (timeout tidied)
  /\ optionHolds (fun z => (0 < z)%Z) (port tidied)
  /\ optionHolds settled (account tidied)
  /\ optionHolds settled (ticket tidied)
  /\ optionHolds settledArgs (args tidied)
  /\ optionHolds settled (cwd tidied).
Proof.
  split; [reflexivity|].
  exact (resolved_config_is_well_formed noNumber noEnv (Some untidy) None tidied
           eq_refl).
Defined.

Lemma overrides_take_precedence_witness :
  Config.envLayer noNumber noEnv = Return envLayerOfNoEnv
  /\ Config.overrideLayer noNumber (Some untidy) = Return tidiedLayer
  /\ Config.resolveConfig noNumber noEnv (Some untidy) (Some launchedConfig)
     = Return tidied
  /\ cliPath tidied = Some "/cli"
  /\ projectPath tidied = Some "/p"
  /\ wsEndpoint tidied = None.
Proof.
  split; [reflexivity|]. split; [reflexivity|]. split; [reflexivity|].
  destruct (overrides_take_precedence noNumber noEnv (Some untidy)
              (Some launchedConfig) envLayerOfNoEnv tidiedLayer tidied
              eq_refl eq_refl eq_refl) as (Cli & Project & Endpoint & _).
  split; [exact Cli|]. split; [exact Project|exact Endpoint].
Defined.

Lemma previous_is_read_for_mode_and_projectPath_witness :
  mode launchedWithCli = mode launchedConfig
  /\ projectPath launchedWithCli = projectPath launchedConfig
  /\ Config.resolveConfig noNumber noEnv None (Some launchedWithCli)
     = Config.resolveConfig noNumber noEnv None (Some launchedConfig).
Proof.
  split; [reflexivity|]. split; [reflexivity|].
  exact (previous_is_read_for_mode_and_projectPath noNumber noEnv None
           launchedWithCli launchedConfig eq_refl eq_refl).
Defined.

Lemma resolved_config_is_stable_witness :
  Config.resolveConfig noNumber noEnv (Some untidy) None = Return tidied
  /\ exists c',
       Config.resolveConfig noNumber noEnv (Some untidy) (Some tidied) = Return c'
       /\ isSameConfig tidied c' = true.
Proof.
  split; [reflexivity|].
  exact (resolved_config_is_stable noNumber noEnv (Some untidy) None tidied eq_refl).
Defined.

Lemma schema_output_is_a_fixed_point_witness :
  Config.parse noNumber untidy = Return tidiedLayer
  /\ echoes tidiedLayer tidiedInput
  /\ Config.parse noNumber tidiedInput = Return tidiedLayer.
Proof.
  assert (E : echoes tidiedLayer tidiedInput).
  { unfold echoes, tidiedLayer, tidiedInput, echo, rawString, rawArgs. simpl.
    repeat split. exists 30000%float. repeat split. }
  split; [reflexivity|]. split; [exact E|].
  exact (schema_output_is_a_fixed_point noNumber untidy tidiedLayer tidiedInput
           eq_refl E).
Defined.

Lemma args_from_a_string_hold_no_white_space_witness :
  argsSchema (Some (RStr " --a  --b ")) = Return (Some ["--a"; "--b"])
  /\ ["--a"; "--b"] <> []
  /\ Forall (fun a => a <> "" /\ allChars notWhiteSpace a = true) ["--a"; "--b"].
Proof.
  split; [reflexivity|].
  exact (args_from_a_string_hold_no_white_space " --a  --b " ["--a"; "--b"] eq_refl).
Defined.

Lemma forced_reconnect_starts_over_witness :
  miniProgram (this (launched obliging)) = Some 1
  /\ Client.config (this (launched obliging)) = Some launchedConfig
  /\ Config.resolveConfig noNumber noEnv (Some (onlyProjectPath "/p"))
       (Some launchedConfig) = Return launchedConfig
  /\ exists logged rest,
       calls (snd (withMiniProgram noNumber obliging noEnv
                     {| overrides := Some (onlyProjectPath "/p"); reconnect := true |}
                     answering (launched obliging))) =
         calls (launched obliging)
           ++ [teardownOf (Some launchedConfig) 1; logged; RemoveAllListeners 1;
               establishingLog launchedConfig; establishmentOf launchedConfig]
           ++ rest.
Proof.
  split; [reflexivity|]. split; [reflexivity|]. split; [reflexivity|].
  exact (forced_reconnect_starts_over noNumber obliging noEnv
           (Some (onlyProjectPath "/p")) answering (launched obliging)
           launchedConfig launchedConfig 1 eq_refl eq_refl eq_refl).
Defined.

Example forced_reconnect_launches_again :
  establishments
    (calls (snd (withMiniProgram noNumber obliging noEnv
                   {| overrides := Some (onlyProjectPath "/p"); reconnect := true |}
                   answering (launched obliging)))) = 2.
Proof. reflexivity. Qed.

Lemma events_reach_the_log_through_the_session_only_witness :
  reachable noNumber noDigits obliging (launched obliging)
  /\ listening (launched obliging) = [1]
  /\ forall e,
       emit noDigits 1 e (launched obliging) = observe noDigits e (launched obliging)
       /\ emit noDigits 0 e (launched obliging) = launched obliging.
Proof.
  assert (R : reachable noNumber noDigits obliging (launched obliging))
    by (apply reachable_withMiniProgram, reachable_initial).
  split; [exact R|].
  destruct (events_reach_the_log_through_the_session_only noNumber noDigits
              obliging (launched obliging) R) as (K & E & _).
  split; [exact K|]. intros e. split; [exact (E 1 e)|exact (E 0 e)].
Defined.

Example unprintable_event_is_not_captured :
  entryOf noDigits {| kind := console; payload := opaqueEvent; observedAt := 9%Z |}
    = None
  /\ emit noDigits 1 {| kind := console; payload := opaqueEvent; observedAt := 9%Z |}
          ticked = ticked
  /\ length (captured noDigits mixed) = 1
  /\ length (getConsoleLogs (emitAll noDigits 1 mixed ticked)) = 2.
Proof. repeat split; reflexivity. Qed.

Lemma getLogs_reads_then_clears_witness :
  let report :=
    {| Application.count := 1; Application.logs := getConsoleLogs ticked |} in
  let report' :=
    {| Application.count := 1; Application.logs := captured noDigits mixed |} in
  reachable noNumber noDigits obliging ticked
  /\ Application.getLogs noNumber None (Some (RStr "yes")) ticked
     = (Return report, clearConsoleLogs ticked)
  /\ Application.getLogs noNumber None None
       (observeAll noDigits mixed (clearConsoleLogs ticked))
     = (Return report', observeAll noDigits mixed (clearConsoleLogs ticked))
  /\ Application.logs report = getConsoleLogs ticked
  /\ Application.count report = length (getConsoleLogs ticked)
  /\ miniProgram (this (clearConsoleLogs ticked)) = miniProgram (this ticked)
  /\ config (this (clearConsoleLogs ticked)) = config (this ticked)
  /\ calls (clearConsoleLogs ticked) = calls ticked
  /\ Application.logs report' = keepLast maxLogs (captured noDigits mixed)
  /\ Application.count report' = length (Application.logs report').
Proof.
  assert (R : reachable noNumber noDigits obliging ticked)
    by (apply reachable_emit, reachable_withMiniProgram, reachable_initial).
  split; [exact R|]. split; [reflexivity|]. split; [reflexivity|].
  exact (getLogs_reads_then_clears noNumber noDigits obliging
           None (Some (RStr "yes")) ticked _ _ mixed None None _ _
           R eq_refl eq_refl).
Defined.

Example page_summary_drops_other_keys :
  Common.toSerializableValue (JObj indexPage) =
    SObj [("path", SStr "pages/index/index");
          ("query", SObj [("from", SStr "share")])].
Proof. reflexivity. Qed.

Lemma serialisers_agree_on_plain_values_witness :
  plain infoEvent = true
  /\ toSerializable infoEvent = Common.toSerializableValue infoEvent.
Proof.
  split; [reflexivity|].
  exact (serialisers_agree_on_plain_values infoEvent eq_refl).
Defined.

Example serialisers_differ_on_pages :
  plain (JObj indexPage) = false
  /\ toSerializable (JObj indexPage) <> Common.toSerializableValue (JObj indexPage).
Proof. split; [reflexivity|discriminate]. Qed.

Lemma buildUrl_appends_an_encoded_query_witness :
  [("q", "a b&c=d"); ("page", "2")] <> []
  /\ Tools.buildUrl "/pages/list" (Some [("q", "a b&c=d"); ("page", "2")])
     = "/pages/list?q=a+b%26c%3Dd&page=2"
  /\ countChar "?" (Tools.buildUrl "/pages/list?tab=1"
                      (Some [("q", "a b&c=d"); ("page", "2")])) = 1.
Proof.
  split; [discriminate|].
  split.
  - exact (proj1 (buildUrl_appends_an_encoded_query "/pages/list"
                    [("q", "a b&c=d"); ("page", "2")]
                    (fun E => eq_ind [("q", "a b&c=d"); ("page", "2")]
                                (fun l => match l with [] => False | _ => True end)
                                I [] E))).
  - exact (proj2 (proj2 (proj2 (proj2
             (buildUrl_appends_an_encoded_query "/pages/list?tab=1"
                [("q", "a b&c=d"); ("page", "2")]
                (fun E => eq_ind [("q", "a b&c=d"); ("page", "2")]
                            (fun l => match l with [] => False | _ => True end)
                            I [] E)))))).
Defined.

Example buildUrl_without_query :
  Tools.buildUrl "/pages/list" None = "/pages/list"
  /\ Tools.buildUrl "/pages/list" (Some []) = "/pages/list".
Proof. split; reflexivity. Qed.

Example resolveElement_on_a_list :
  Tools.resolveElement listPage "#list" (Some ".item")
    = Return (Tools.element 2 None)
  /\ Tools.resolveElement listPage "#list" (Some "") = Return listElement
  /\ Tools.resolveElement listPage "#list" (Some ".missing")
     = Throw (UserError (Tools.innerNotFound ".missing" "#list"))
  /\ Tools.resolveElement listPage "#none" None
     = Throw (UserError (Tools.elementNotFound "#none"))
  /\ Tools.resolveElement (Some None) "#list" None
     = Throw (UserError Tools.pageNotAvailable).
Proof. repeat split; reflexivity. Qed.
